(** * Barcode trimmer: the classification engine of
      [barcode_trimmer_streamlit_app.py], embedded and verified.

    Python [str] values are modelled as [string] (ASCII text), Python lists
    as [list], the scoring integers as [Z] and the counters as [nat].
    The three third-party libraries the program calls (pathlib, Biopython,
    parasail) are interfaces of the model: the classifier is written in a
    section over them, and a reference instance is given next to it.
    The progress display ([progress_placeholder], and the first counting
    pass of the fallback that only feeds it) and the two timestamps of the
    log are not modelled. *)

From Stdlib Require Import ZArith List String Ascii Bool Arith Lia Setoid.
From Stdlib Require Import Permutation DecimalString DecimalNat.
Import ListNotations.

Open Scope string_scope.

(** ** Python string primitives *)

Module PyStr.

Definition LF : ascii := "010"%char.

(** [str.isspace] on the ASCII range: TAB..CR, FS..US and the blank. *)
Definition is_space (c : ascii) : bool :=
  let n := nat_of_ascii c in
  (((9 <=? n) && (n <=? 13)) || ((28 <=? n) && (n <=? 32)))%nat.

Fixpoint lstrip (s : string) : string :=
  match s with
  | EmptyString => EmptyString
  | String c s' => if is_space c then lstrip s' else s
  end.

Fixpoint rstrip (s : string) : string :=
  match s with
  | EmptyString => EmptyString
  | String c s' =>
      match rstrip s' with
      | EmptyString => if is_space c then EmptyString else String c EmptyString
      | r => String c r
      end
  end.

(** [s.strip()] *)
Definition strip (s : string) : string := rstrip (lstrip s).

(** [s.split('\n')]: never the empty list. *)
Fixpoint split_lines (s : string) : list string :=
  match s with
  | EmptyString => [EmptyString]
  | String c s' =>
      if Ascii.eqb c LF then EmptyString :: split_lines s'
      else match split_lines s' with
           | [] => [String c EmptyString]
           | l :: ls => String c l :: ls
           end
  end.

(** ['\n'.join(ls)] *)
Definition join_lines (ls : list string) : string :=
  String.concat (String LF EmptyString) ls.

Definition upper_char (c : ascii) : ascii :=
  let n := nat_of_ascii c in
  if ((97 <=? n) && (n <=? 122))%nat then ascii_of_nat (n - 32) else c.

(** [s.upper()] *)
Fixpoint upper (s : string) : string :=
  match s with
  | EmptyString => EmptyString
  | String c s' => String (upper_char c) (upper s')
  end.

Definition lower_char (c : ascii) : ascii :=
  let n := nat_of_ascii c in
  if ((65 <=? n) && (n <=? 90))%nat then ascii_of_nat (n + 32) else c.

(** [s.lower()] *)
Fixpoint lower (s : string) : string :=
  match s with
  | EmptyString => EmptyString
  | String c s' => String (lower_char c) (lower s')
  end.

(** [s.startswith(p)] *)
Definition startswith (s p : string) : bool := String.prefix p s.

(** Truth value of a string: [if s:] *)
Definition truthy (s : string) : bool :=
  match s with EmptyString => false | _ => true end.

(** [a in s] on strings: [a] occurs in [s] as a contiguous block. *)
Fixpoint contains (s a : string) : bool :=
  String.prefix a s ||
  match s with
  | EmptyString => false
  | String _ s' => contains s' a
  end.

(** [any(f(x) for x in xs)]: stops at the first hit. *)
Definition any {A} (f : A -> bool) (xs : list A) : bool := existsb f xs.

End PyStr.

Import PyStr.

(** ** Reverse complement *)

(** Modelled from the spec: [Bio.Seq.Seq.reverse_complement] is Biopython's
    and not part of the repository.  Section 4.3: "Reverse complement maps
    A<->T, C<->G, all other symbols pass through unchanged", applied to the
    reversed sequence. *)
Definition complement (c : ascii) : ascii :=
  if Ascii.eqb c "A" then "T"%char
  else if Ascii.eqb c "T" then "A"%char
  else if Ascii.eqb c "C" then "G"%char
  else if Ascii.eqb c "G" then "C"%char
  else c.

(** Modelled from the spec: [str(Seq(seq).reverse_complement())], the
    complement of each symbol of the reversed sequence (section 4.3). *)
Definition reverse_complement (s : string) : string :=
  string_of_list_ascii (rev (map complement (list_ascii_of_string s))).

Definition is_ACGT (c : ascii) : bool :=
  Ascii.eqb c "A" || Ascii.eqb c "C" || Ascii.eqb c "G" || Ascii.eqb c "T".

(** A sequence over the alphabet {A,C,G,T}. *)
Definition over_ACGT (s : string) : Prop :=
  Forall (fun c => is_ACGT c = true) (list_ascii_of_string s).

(** ** Adapter loading *)

(** The body of [if current_seq: ...] in [load_adapters]: append the
    upper-cased sequence and then its reverse complement. *)
Definition append_adapter (adapters : list string) (current_seq : string)
  : list string :=
  if truthy current_seq then
    let seq := upper current_seq in
    (adapters ++ [seq]) ++ [reverse_complement seq]
  else adapters.

(** The [for line in lines] loop of [load_adapters], on the state
    [(adapters, current_seq)]. *)
Fixpoint load_adapters_loop (lines : list string)
    (adapters : list string) (current_seq : string)
  : list string * string :=
  match lines with
  | [] => (adapters, current_seq)
  | line :: rest =>
      let line := strip line in
      if startswith line ">" then
        load_adapters_loop rest (append_adapter adapters current_seq) ""
      else
        load_adapters_loop rest adapters (current_seq ++ line)
  end.

Definition load_adapters (fasta_content : string) : list string :=
  let lines := split_lines (strip fasta_content) in
  let '(adapters, current_seq) := load_adapters_loop lines [] "" in
  append_adapter adapters current_seq.

(** The adapter parser inlined in [simple_filter_fallback]: forward
    sequences only. *)
Definition append_forward (adapters : list string) (current_seq : string)
  : list string :=
  if truthy current_seq then adapters ++ [upper current_seq] else adapters.

Fixpoint fallback_adapters_loop (lines : list string)
    (adapters : list string) (current_seq : string)
  : list string * string :=
  match lines with
  | [] => (adapters, current_seq)
  | line :: rest =>
      let line := strip line in
      if startswith line ">" then
        fallback_adapters_loop rest (append_forward adapters current_seq) ""
      else
        fallback_adapters_loop rest adapters (current_seq ++ line)
  end.

Definition fallback_adapters (adapter_content : string) : list string :=
  let lines := split_lines (strip adapter_content) in
  let '(adapters, current_seq) := fallback_adapters_loop lines [] "" in
  append_forward adapters current_seq.

(** *** The panel as a list of records (section 4.3 of the specification)

    A record is a header line and the concatenation of the stripped lines
    that follow it, up to the next header or the end of the text; lines
    that precede the first header form a record of their own, without a
    header. *)

Definition is_header (line : string) : bool := startswith (strip line) ">".

(** [group_records lines] is the body of the lines before the first
    header, and the bodies of the records opened by each header. *)
Fixpoint group_records (lines : list string) : string * list string :=
  match lines with
  | [] => ("", [])
  | line :: rest =>
      let '(body, recs) := group_records rest in
      if is_header line then ("", body :: recs)
      else (strip line ++ body, recs)
  end.

(** The sequences of the records of a panel, in input order. *)
Definition panel_records (fasta_content : string) : list string :=
  let lines := split_lines (strip fasta_content) in
  let '(body, recs) := group_records lines in
  match lines with
  | [] => recs
  | line :: _ => if is_header line then recs else body :: recs
  end.

(** What one record contributes to the adapter set. *)
Definition adapter_pair (s : string) : list string :=
  [upper s; reverse_complement (upper s)].

(** ** Data model *)

Inductive Format := FASTA | FASTQ.

Record SeqRecord := mkSeqRecord {
  rec_id : string;
  rec_description : string;
  rec_seq : string;              (* [str(rec.seq)] *)
  rec_quality : option string
}.

(** The [params] dictionary built by the form: five integers. *)
Record Params := mkParams {
  p_min_score : Z;
  p_match : Z;
  p_mismatch : Z;
  p_gap_open : Z;
  p_gap_extend : Z
}.

Definition with_min_score (p : Params) (t : Z) : Params :=
  mkParams t (p_match p) (p_mismatch p) (p_gap_open p) (p_gap_extend p).

Inductive Tool := ParasailSmithWaterman | SimpleSubstring.

(** The fields of the log text that depend on the run (the two
    timestamps are clock readings and are left out). *)
Record RunLog := mkRunLog {
  log_tool : Tool;
  log_params : Params;
  log_input_file : string;
  log_format : Format;
  log_total_reads : nat;
  log_adapters_loaded : nat;
  log_reads_kept : nat;
  log_reads_discarded : nat
}.

(** ** Exceptions as [option] *)

Definition bind {A B} (m : option A) (k : A -> option B) : option B :=
  match m with
  | Some a => k a
  | None => None
  end.

Notation "x <- m ;; k" := (bind m (fun x => k))
  (at level 61, m at next level, right associativity).

(** [range(start, stop, step)] for a positive step. *)
Fixpoint range_from (fuel start stop step : nat) : list nat :=
  match fuel with
  | O => []
  | S fuel' =>
      if (start <? stop)%nat
      then start :: range_from fuel' (start + step) stop step
      else []
  end.

Definition py_range (start stop step : nat) : list nat :=
  range_from stop start stop step.

(** [for i in idx: body], where the body may raise. *)
Fixpoint for_each {St} (body : nat -> St -> option St) (idx : list nat)
    (st : St) : option St :=
  match idx with
  | [] => Some st
  | i :: rest => st' <- body i st ;; for_each body rest st'
  end.

(** State of the two partitions in [simple_filter_fallback]. *)
Record FilterState := mkFilterState {
  kept_lines : list string;
  discarded_lines : list string;
  kept_count : nat;
  discarded_count : nat;
  processed : nat
}.

Definition initial_state : FilterState := mkFilterState [] [] 0 0 0.

(** [contaminated = any(adapter in seq for adapter in adapters)] *)
Definition substring_hit (adapters : list string) (seq : string) : bool :=
  any (fun adapter => contains seq adapter) adapters.

(** The [if contaminated: ... else: ...] routing of one read block. *)
Definition route_block (contaminated : bool) (block : list string)
    (st : FilterState) : FilterState :=
  if contaminated then
    mkFilterState (kept_lines st) (discarded_lines st ++ block)
      (kept_count st) (discarded_count st + 1) (processed st)
  else
    mkFilterState (kept_lines st ++ block) (discarded_lines st)
      (kept_count st + 1) (discarded_count st) (processed st).

Definition count_processed (st : FilterState) : FilterState :=
  mkFilterState (kept_lines st) (discarded_lines st)
    (kept_count st) (discarded_count st) (processed st + 1).

(** Body of the FASTQ loop at index [i]; [reads_lines[i + 1]] raises
    [IndexError] out of range, the slice [reads_lines[i:i+4]] does not. *)
Definition fastq_body (adapters reads_lines : list string) (i : nat)
    (st : FilterState) : option FilterState :=
  if (i + 3 <? List.length reads_lines)%nat then
    let st := count_processed st in
    line <- nth_error reads_lines (i + 1) ;;
    let seq := upper (strip line) in
    let contaminated := substring_hit adapters seq in
    let read_block := firstn 4 (skipn i reads_lines) in
    Some (route_block contaminated read_block st)
  else Some st.

Definition fastq_loop (adapters reads_lines : list string)
  : option FilterState :=
  for_each (fastq_body adapters reads_lines)
    (py_range 0 (List.length reads_lines) 4) initial_state.

(** The [if current_header and current_seq: ...] block of the FASTA
    branch (it occurs twice: at each header and after the loop). *)
Definition fasta_flush (adapters : list string)
    (current_header current_seq : string) (st : FilterState) : FilterState :=
  if truthy current_header && truthy current_seq then
    let st := count_processed st in
    let contaminated := substring_hit adapters (upper current_seq) in
    route_block contaminated [current_header; current_seq] st
  else st.

Fixpoint fasta_loop (adapters lines : list string)
    (current_header current_seq : string) (st : FilterState)
  : string * string * FilterState :=
  match lines with
  | [] => (current_header, current_seq, st)
  | line :: rest =>
      let line := strip line in
      if startswith line ">" then
        fasta_loop adapters rest line ""
          (fasta_flush adapters current_header current_seq st)
      else
        fasta_loop adapters rest current_header (current_seq ++ line) st
  end.

(** ['\n'.join(ls) + '\n' if ls else ''] *)
Definition lines_content (ls : list string) : string :=
  match ls with
  | [] => ""
  | _ => join_lines ls ++ String LF ""
  end.

(** ** The classifier, over the interfaces of its libraries *)

Section Engine.

(** [Path(filename).suffix] (pathlib). *)
Variable path_suffix : string -> string.

(** [parasail.matrix_create(alphabet, match, mismatch)] and the [score]
    field of [parasail.sw_scan_16(s1, s2, open, extend, matrix)]. *)
Variable Matrix : Type.
Variable matrix_create : string -> Z -> Z -> Matrix.
Variable sw_scan_16 : string -> string -> Z -> Z -> Matrix -> Z.

(** [SeqIO.parse(handle, fmt)], read to the end; [None] when the parser
    raises.  [SeqIO.write(records, handle, fmt)], as the text written. *)
Variable SeqIO_parse : string -> Format -> option (list SeqRecord).
Variable SeqIO_write : list SeqRecord -> Format -> string.

Definition file_format_from_name (filename : string) : Format :=
  let ext := lower (path_suffix filename) in
  if String.eqb ext ".fa" || String.eqb ext ".fasta" then FASTA
  else if String.eqb ext ".fq" || String.eqb ext ".fastq" then FASTQ
  else FASTQ.

(** The score of one adapter against the upper-cased read. *)
Definition adapter_score (params : Params) (matrix : Matrix)
    (seq adapter : string) : Z :=
  sw_scan_16 seq adapter (p_gap_open params) (p_gap_extend params) matrix.

(** The [for adapter in adapters: ... break] loop.  The result is the
    flag [contaminated] and the adapters that were passed to the
    aligner, in call order. *)
Fixpoint scan_adapters (params : Params) (matrix : Matrix) (seq : string)
    (adapters : list string) : bool * list string :=
  match adapters with
  | [] => (false, [])
  | adapter :: rest =>
      if (adapter_score params matrix seq adapter >=? p_min_score params)%Z
      then (true, [adapter])
      else let '(contaminated, called) :=
             scan_adapters params matrix seq rest in
           (contaminated, adapter :: called)
  end.

Definition is_contaminated (params : Params) (matrix : Matrix)
    (adapters : list string) (rec : SeqRecord) : bool :=
  let seq := upper (rec_seq rec) in
  fst (scan_adapters params matrix seq adapters).

(** The [for rec in SeqIO.parse(reads_io, fmt)] loop, on the state
    [(kept_reads, discarded_reads, processed)]. *)
Fixpoint classify_loop (params : Params) (matrix : Matrix)
    (adapters : list string) (recs : list SeqRecord)
    (kept_reads discarded_reads : list SeqRecord) (processed : nat)
  : list SeqRecord * list SeqRecord * nat :=
  match recs with
  | [] => (kept_reads, discarded_reads, processed)
  | rec :: rest =>
      let processed := processed + 1 in
      if is_contaminated params matrix adapters rec then
        classify_loop params matrix adapters rest
          kept_reads (discarded_reads ++ [rec]) processed
      else
        classify_loop params matrix adapters rest
          (kept_reads ++ [rec]) discarded_reads processed
  end.

Definition simple_filter_fallback (adapter_content reads_content
    reads_filename : string) (params : Params)
  : option (string * string * RunLog) :=
  let adapters := fallback_adapters adapter_content in
  let fmt := file_format_from_name reads_filename in
  let reads_lines := split_lines (strip reads_content) in
  st <- match fmt with
        | FASTQ => fastq_loop adapters reads_lines
        | FASTA =>
            let '(current_header, current_seq, st) :=
              fasta_loop adapters reads_lines "" "" initial_state in
            Some (fasta_flush adapters current_header current_seq st)
        end ;;
  let total := processed st in
  let kept_content := lines_content (kept_lines st) in
  let discarded_content := lines_content (discarded_lines st) in
  Some (kept_content, discarded_content,
        mkRunLog SimpleSubstring params reads_filename fmt total
          (List.length adapters) (kept_count st) (discarded_count st)).

(** [DEPENDENCIES_AVAILABLE] is fixed when the module is imported; here
    it is an argument. *)
Definition filter_reads_web (DEPENDENCIES_AVAILABLE : bool)
    (adapter_content reads_content reads_filename : string)
    (params : Params) : option (string * string * RunLog) :=
  if negb DEPENDENCIES_AVAILABLE then
    simple_filter_fallback adapter_content reads_content reads_filename
      params
  else
    let adapters := load_adapters adapter_content in
    let matrix := matrix_create "ACGT" (p_match params) (p_mismatch params) in
    let fmt := file_format_from_name reads_filename in
    (* first pass: count the reads *)
    counted <- SeqIO_parse reads_content fmt ;;
    let total_reads := List.length counted in
    (* second pass: classify *)
    recs <- SeqIO_parse reads_content fmt ;;
    let '(kept_reads, discarded_reads, _) :=
      classify_loop params matrix adapters recs [] [] 0 in
    let kept_content := SeqIO_write kept_reads fmt in
    let discarded_content := SeqIO_write discarded_reads fmt in
    Some (kept_content, discarded_content,
          mkRunLog ParasailSmithWaterman params reads_filename fmt
            total_reads (List.length adapters / 2)
            (List.length kept_reads) (List.length discarded_reads)).

End Engine.

Arguments file_format_from_name path_suffix filename : assert.
Arguments scan_adapters {Matrix} sw_scan_16 params matrix seq adapters.
Arguments adapter_score {Matrix} sw_scan_16 params matrix seq adapter.
Arguments is_contaminated {Matrix} sw_scan_16 params matrix adapters rec.
Arguments classify_loop {Matrix} sw_scan_16 params matrix adapters recs
  kept_reads discarded_reads processed.
Arguments filter_reads_web path_suffix {Matrix} matrix_create sw_scan_16
  SeqIO_parse SeqIO_write DEPENDENCIES_AVAILABLE adapter_content
  reads_content reads_filename params.

(** ** The reads of a fallback run (section 4.2 of the specification)

    A read of the fallback is the sequence it is compared by and the
    block of lines it is written back as. *)

Definition Read : Type := string * list string.

(** FASTQ: groups of four lines; a shorter last group is no read. *)
Fixpoint fastq_reads (lines : list string) : list Read :=
  match lines with
  | l1 :: l2 :: l3 :: l4 :: rest =>
      (upper (strip l2), [l1; l2; l3; l4]) :: fastq_reads rest
  | _ => []
  end.

(** FASTA: the header lines with the body that follows each. *)
Fixpoint fasta_groups (lines : list string)
  : string * list (string * string) :=
  match lines with
  | [] => ("", [])
  | line :: rest =>
      let '(body, recs) := fasta_groups rest in
      if is_header line then ("", (strip line, body) :: recs)
      else (strip line ++ body, recs)
  end.

(** FASTA: a header with an empty body is no read, and neither are the
    lines before the first header. *)
Definition fasta_reads (lines : list string) : list Read :=
  map (fun hb => (upper (snd hb), [fst hb; snd hb]))
      (filter (fun hb => truthy (snd hb)) (snd (fasta_groups lines))).

Definition fallback_reads (fmt : Format) (reads_content : string)
  : list Read :=
  let lines := split_lines (strip reads_content) in
  match fmt with
  | FASTQ => fastq_reads lines
  | FASTA => fasta_reads lines
  end.

(** [m] is a merge of [l] and [r] that keeps the order of both: every
    element of [m] comes from exactly one of them. *)
Inductive Interleave {A : Type} : list A -> list A -> list A -> Prop :=
| Interleave_nil : Interleave [] [] []
| Interleave_left x l r m :
    Interleave l r m -> Interleave (x :: l) r (x :: m)
| Interleave_right x l r m :
    Interleave l r m -> Interleave l (x :: r) (x :: m).

(** [a] is a literal substring of [s]. *)
Definition is_substring (a s : string) : Prop :=
  exists pre post, s = pre ++ a ++ post.

(** ** A reference instance of the library interfaces *)

Module Reference.

(** A stand-in for [Path(name).suffix] on a bare file name (no directory
    part): the text from the last dot on, when that dot is neither the
    first nor the last character. *)
Fixpoint from_last_dot (s : string) : string :=
  match s with
  | EmptyString => EmptyString
  | String c s' =>
      match from_last_dot s' with
      | EmptyString => if Ascii.eqb c "." then s else EmptyString
      | r => r
      end
  end.

Definition path_suffix (name : string) : string :=
  let r := from_last_dot name in
  if ((1 <? String.length r) && (String.length r <? String.length name))%nat
  then r else "".

(** Modelled from the spec: [parasail.matrix_create] and
    [parasail.sw_scan_16] are parasail's and not part of the repository.
    Section 4.4: "the maximum-scoring local alignment (Smith-Waterman
    semantics: the alignment may start and end anywhere in either
    sequence, affine gap penalty = gap_open_penalty + (length-1) x
    gap_extend_penalty per gap, substitution score = match_score when
    symbols equal else mismatch_penalty)". *)
Definition Matrix : Type := ascii -> ascii -> Z.

(** Modelled from the spec: [parasail.matrix_create]; section 4.4,
    "substitution score = match_score when symbols equal else
    mismatch_penalty". *)
Definition matrix_create (alphabet : string) (match_score mismatch : Z)
  : Matrix :=
  fun a b => if Ascii.eqb a b then match_score else mismatch.

(** Best score of an alignment that ends in a gap, from the cell before
    the gap's last position: [h] is that cell's best score, [g] its best
    gap-ending score ([None] on the border). *)
Definition gap_score (gap_open gap_extend h : Z) (g : option Z) : Z :=
  match g with
  | None => h - gap_open
  | Some g => Z.max (h - gap_open) (g - gap_extend)
  end.

(** One row of the table.  [prev] holds, for each column, the best score
    and the best vertical-gap score of the row above; [diag] and [left_h]
    are the best scores above-left and left, [left_e] the best
    horizontal-gap score on the left. *)
Fixpoint sw_row (matrix : Matrix) (gap_open gap_extend : Z) (a : ascii)
    (adapter : list ascii) (prev : list (Z * option Z))
    (diag left_h : Z) (left_e : option Z) : list (Z * option Z) :=
  match adapter, prev with
  | b :: adapter', (up_h, up_f) :: prev' =>
      let e := gap_score gap_open gap_extend left_h left_e in
      let f := gap_score gap_open gap_extend up_h up_f in
      let h := Z.max 0 (Z.max (diag + matrix a b) (Z.max e f)) in
      (h, Some f)
        :: sw_row matrix gap_open gap_extend a adapter' prev' up_h h (Some e)
  | _, _ => []
  end.

Fixpoint sw_rows (matrix : Matrix) (gap_open gap_extend : Z)
    (read adapter : list ascii) (prev : list (Z * option Z)) (best : Z) : Z :=
  match read with
  | [] => best
  | a :: read' =>
      let row := sw_row matrix gap_open gap_extend a adapter prev 0 0 None in
      sw_rows matrix gap_open gap_extend read' adapter row
        (fold_left Z.max (map fst row) best)
  end.

(** Modelled from the spec: the [score] of [parasail.sw_scan_16]; section
    4.4, the best local alignment score with affine gaps, by the standard
    dynamic-programming recurrence over the rows of the read. *)
Definition sw_scan_16 (s1 s2 : string) (gap_open gap_extend : Z)
    (matrix : Matrix) : Z :=
  let adapter := list_ascii_of_string s2 in
  sw_rows matrix gap_open gap_extend (list_ascii_of_string s1) adapter
    (map (fun _ => (0%Z, None)) adapter) 0.

(** Modelled from the spec: [SeqIO.parse] and [SeqIO.write] are
    Biopython's and not part of the repository.  Section 4.2: "For FASTQ,
    each record spans exactly 4 physical lines (id line, sequence line,
    separator line, quality line); a truncated trailing group (fewer than
    4 lines remaining) is silently dropped.  For FASTA, a record is a
    header line (>) followed by one or more sequence lines concatenated
    until the next header or end of input; an empty sequence after a
    header is dropped."  Section 3: the description is the "free text
    following the id on a header line". *)
Fixpoint split_title (s : string) : string * string :=
  match s with
  | EmptyString => ("", "")
  | String c s' =>
      if is_space c then ("", lstrip s')
      else let '(id, descr) := split_title s' in (String c id, descr)
  end.

Definition drop_marker (line : string) : string :=
  match line with
  | EmptyString => EmptyString
  | String _ s => s
  end.

Definition record_of (title seq : string) (quality : option string)
  : SeqRecord :=
  let '(id, descr) := split_title (drop_marker title) in
  mkSeqRecord id descr seq quality.

Fixpoint parse_fastq (lines : list string) : list SeqRecord :=
  match lines with
  | l1 :: l2 :: l3 :: l4 :: rest =>
      record_of (strip l1) (strip l2) (Some (strip l4)) :: parse_fastq rest
  | _ => []
  end.

Definition parse_fasta (lines : list string) : list SeqRecord :=
  map (fun hb => record_of (fst hb) (snd hb) None)
      (filter (fun hb => truthy (snd hb)) (snd (fasta_groups lines))).

(** Modelled from the spec: [SeqIO.parse] (section 4.2); this parser
    raises on no input. *)
Definition SeqIO_parse (text : string) (fmt : Format)
  : option (list SeqRecord) :=
  let lines := split_lines text in
  Some match fmt with
       | FASTQ => parse_fastq lines
       | FASTA => parse_fasta lines
       end.

Definition title_of (rec : SeqRecord) : string :=
  if truthy (rec_description rec)
  then rec_id rec ++ " " ++ rec_description rec
  else rec_id rec.

Definition write_record (fmt : Format) (rec : SeqRecord) : string :=
  match fmt with
  | FASTA =>
      ">" ++ title_of rec ++ String LF (rec_seq rec ++ String LF "")
  | FASTQ =>
      "@" ++ title_of rec ++ String LF (rec_seq rec ++ String LF ("+" ++ String LF
        (match rec_quality rec with Some q => q | None => "" end
         ++ String LF "")))
  end.

(** Modelled from the spec: [SeqIO.write] (section 4.2): FASTA on a
    single sequence line, FASTQ on four lines with a literal [+]. *)
Definition SeqIO_write (recs : list SeqRecord) (fmt : Format) : string :=
  String.concat "" (map (write_record fmt) recs).

(** The program with the reference libraries. *)
Definition run : bool -> string -> string -> string -> Params ->
                 option (string * string * RunLog) :=
  filter_reads_web path_suffix matrix_create sw_scan_16 SeqIO_parse SeqIO_write.

End Reference.

(** ** The example of section 8 *)

Module Scenario.

Definition adapter_panel : string := ">A1" ++ String LF "ACGTACGT".

Definition reads : string :=
  ">r1" ++ String LF ("ACGTACGTTTTT" ++ String LF (">r2" ++ String LF "GGGGGGGGGG")).

Definition params : Params := mkParams 10 2 (-1) 5 1.

Definition r1 : SeqRecord := mkSeqRecord "r1" "" "ACGTACGTTTTT" None.
Definition r2 : SeqRecord := mkSeqRecord "r2" "" "GGGGGGGGGG" None.

End Scenario.

(** ** The fallback loops as one routing pass over the reads *)

Definition route_read (adapters : list string) (st : FilterState) (r : Read)
  : FilterState :=
  route_block (substring_hit adapters (fst r)) (snd r) (count_processed st).

Definition route_all (adapters : list string) (reads : list Read)
    (st : FilterState) : FilterState :=
  fold_left (route_read adapters) reads st.

Definition hit (adapters : list string) (r : Read) : bool :=
  substring_hit adapters (fst r).

Definition clean (adapters : list string) (r : Read) : bool :=
  negb (hit adapters r).

Definition block_lines (reads : list Read) : list string :=
  List.concat (map snd reads).

(** The number of discarded reads a run reports, when it completes. *)
Definition discarded_of (result : option (string * string * RunLog))
  : option nat :=
  option_map (fun r => log_reads_discarded (snd r)) result.

(** What a record contributes to the adapter set of [load_adapters], and
    to that of the fallback. *)
Definition emit_pair (s : string) : list string :=
  if truthy s then adapter_pair s else [].

Definition emit_forward (s : string) : list string :=
  if truthy s then [upper s] else [].

(** The lines of a text as the loaders read them, each one stripped. *)
Definition stripped_lines (content : string) : list string :=
  map strip (split_lines (strip content)).

Definition concat_all (ls : list string) : string :=
  fold_right String.append "" ls.

(** The reads of a list of (header, body) groups: those with a header
    and a non-empty body. *)
Definition group_reads (groups : list (string * string)) : list Read :=
  map (fun hb => (upper (snd hb), [fst hb; snd hb]))
      (filter (fun hb => truthy (fst hb) && truthy (snd hb)) groups).

(** An adapter scores below the threshold against [seq], or reaches it. *)
Definition below_threshold (Matrix : Type)
    (sw_scan_16 : string -> string -> Z -> Z -> Matrix -> Z)
    (params : Params) (matrix : Matrix) (seq adapter : string) : Prop :=
  (adapter_score sw_scan_16 params matrix seq adapter < p_min_score params)%Z.

Definition reaches_threshold (Matrix : Type)
    (sw_scan_16 : string -> string -> Z -> Z -> Matrix -> Z)
    (params : Params) (matrix : Matrix) (seq adapter : string) : Prop :=
  (adapter_score sw_scan_16 params matrix seq adapter >= p_min_score params)%Z.

Module TruncatedFastq.

(** One complete record followed by the first two lines of a second. *)
Definition reads : string :=
  "@r1" ++ String LF ("TTACGTACGTAA" ++ String LF ("+" ++ String LF
    ("IIIIIIIIIIII" ++ String LF ("@r2" ++ String LF "GGGG")))).

End TruncatedFastq.

(** The first pass of the FASTA branch of [simple_filter_fallback]:
    [sum(1 for line in reads_lines if line.strip().startswith('>'))]. *)
Definition fasta_total_reads (reads_lines : list string) : nat :=
  List.length (filter (fun line => startswith (strip line) ">") reads_lines).

(** Two strings that differ in the case of their ASCII letters only. *)
Definition same_ignoring_case (s t : string) : Prop :=
  Forall2 (fun a b => lower_char a = lower_char b)
    (list_ascii_of_string s) (list_ascii_of_string t).

(** The state of the FASTA branch of [simple_filter_fallback] after its
    loop and the final flush. *)
Definition fasta_final (adapters reads_lines : list string) : FilterState :=
  let '(current_header, current_seq, st) :=
    fasta_loop adapters reads_lines "" "" initial_state in
  fasta_flush adapters current_header current_seq st.

(** ** The log text and the statistics read back from it *)

(** [str(n)] for a natural number and for an integer. *)
Definition decimal (n : nat) : string :=
  NilEmpty.string_of_uint (Nat.to_uint n).

Definition decimal_Z (z : Z) : string :=
  NilEmpty.string_of_int (Z.to_int z).

(** The digits from the least significant one, with a comma before every
    fourth, seventh, ... digit; [k] digits of the current group are out. *)
Fixpoint group3 (digits : list ascii) (k : nat) : list ascii :=
  match digits with
  | [] => []
  | d :: rest =>
      if (k =? 3)%nat then ","%char :: d :: group3 rest 1
      else d :: group3 rest (S k)
  end.

(** [f"{n:,}"] *)
Definition thousands (n : nat) : string :=
  string_of_list_ascii
    (rev (group3 (rev (list_ascii_of_string (decimal n))) 0)).

(** [fmt], the string that [file_format_from_name] returns. *)
Definition format_name (fmt : Format) : string :=
  match fmt with
  | FASTA => "fasta"
  | FASTQ => "fastq"
  end.

(** One entry of the dictionary as [json.dumps] with an indent of 2
    writes it: two blanks, the quoted key, a colon, a blank, the value. *)
Definition json_entry (key : string) (value : Z) : string :=
  "  " ++ String "034" (key ++ String "034" (": " ++ decimal_Z value)).

(** [json.dumps(params, indent=2)] on the dictionary that [main] builds,
    keys in insertion order. *)
Definition json_dumps (params : Params) : string :=
  join_lines
    ["{";
     json_entry "min_score" (p_min_score params) ++ ",";
     json_entry "match" (p_match params) ++ ",";
     json_entry "mismatch" (p_mismatch params) ++ ",";
     json_entry "gap_open" (p_gap_open params) ++ ",";
     json_entry "gap_extend" (p_gap_extend params);
     "}"].

(** The part of both log texts up to the line of the input file. *)
Definition log_head (started : string) (log : RunLog) : list string :=
  [match log_tool log with
   | ParasailSmithWaterman => "Mid-Read Barcode Trimming Log"
   | SimpleSubstring => "Mid-Read Barcode Trimming Log (Simplified Mode)"
   end;
   "Started: " ++ started;
   match log_tool log with
   | ParasailSmithWaterman => "Tool: Parasail SIMD Smith-Waterman Filter"
   | SimpleSubstring => "Tool: Simple substring-based filter"
   end;
   "";
   "Parameters:";
   json_dumps (log_params log);
   "";
   "Input File: " ++ log_input_file log;
   "Format: " ++ upper (format_name (log_format log))].

(** The part of both log texts from the line of the total on. *)
Definition log_tail (completed : string) (log : RunLog) : list string :=
  ["Total reads: " ++ thousands (log_total_reads log);
   "Adapters loaded: " ++ decimal (log_adapters_loaded log);
   "";
   "Results:";
   "Reads kept: " ++ thousands (log_reads_kept log);
   "Reads discarded: " ++ thousands (log_reads_discarded log);
   "Completed: " ++ completed]
  ++ match log_tool log with
     | ParasailSmithWaterman => [""]
     | SimpleSubstring =>
         [""; "Note: This is a simplified version. Install BioPython and parasail for full Smith-Waterman alignment."; ""]
     end.

(** [log_content], the f-string of [filter_reads_web] or of
    [simple_filter_fallback]; [started] and [completed] are the two
    values of [datetime.now().isoformat()]. *)
Definition log_content (started completed : string) (log : RunLog) : string :=
  join_lines (log_head started log ++ log_tail completed log).

(** [s.split(sep)] for a one-character separator. *)
Fixpoint split_on (sep : ascii) (s : string) : list string :=
  match s with
  | EmptyString => [EmptyString]
  | String c s' =>
      if Ascii.eqb c sep then EmptyString :: split_on sep s'
      else match split_on sep s' with
           | [] => [String c EmptyString]
           | l :: ls => String c l :: ls
           end
  end.

(** The dictionary [stats] of [main]: the three keys it may hold. *)
Record Stats := mkStats {
  stat_total : option string;
  stat_kept : option string;
  stat_discarded : option string
}.

(** [line.split(':')[1].strip()]; the index raises [IndexError]. *)
Definition second_field (line : string) : option string :=
  v <- nth_error (split_on ":" line) 1 ;; Some (strip v).

(** The [if ... elif ... elif ...] of the statistics loop. *)
Definition stats_line (stats : Stats) (line : string) : option Stats :=
  if contains line "Total reads:" then
    v <- second_field line ;;
    Some (mkStats (Some v) (stat_kept stats) (stat_discarded stats))
  else if contains line "Reads kept:" then
    v <- second_field line ;;
    Some (mkStats (stat_total stats) (Some v) (stat_discarded stats))
  else if contains line "Reads discarded:" then
    v <- second_field line ;;
    Some (mkStats (stat_total stats) (stat_kept stats) (Some v))
  else Some stats.

Fixpoint stats_loop (log_lines : list string) (stats : Stats)
  : option Stats :=
  match log_lines with
  | [] => Some stats
  | line :: rest => stats' <- stats_line stats line ;; stats_loop rest stats'
  end.

(** The statistics that [main] reads off a log text. *)
Definition parse_stats (log_text : string) : option Stats :=
  stats_loop (split_on LF log_text) (mkStats None None None).

(** A character of [datetime.isoformat()]: a digit or one of [-], [:],
    [T], [.]. *)
Definition is_digit (c : ascii) : bool :=
  let n := nat_of_ascii c in ((48 <=? n) && (n <=? 57))%nat.

Definition iso_char (c : ascii) : bool :=
  is_digit c || Ascii.eqb c "-" || Ascii.eqb c ":" || Ascii.eqb c "T"
  || Ascii.eqb c ".".

Definition iso_text (s : string) : Prop :=
  Forall (fun c => iso_char c = true) (list_ascii_of_string s).

(** A text in which the character [sep] does not occur. *)
Definition free_of (sep : ascii) (s : string) : Prop :=
  Forall (fun c => c <> sep) (list_ascii_of_string s).

(** ** Texts without blanks at either end *)

(** The first character, if any, is no white space. *)
Definition starts_clean (s : string) : Prop :=
  match s with
  | EmptyString => True
  | String c _ => is_space c = false
  end.

(** A text without white space at either end: [strip] leaves it as it
    is. *)
Definition trimmed (s : string) : Prop := starts_clean s /\ rstrip s = s.

(** The read that the FASTA fallback makes of a header and its body. *)
Definition read_of (hb : string * string) : Read :=
  (upper (snd hb), [fst hb; snd hb]).

(** A header and a body as the FASTA fallback holds them: both on one
    line and trimmed, the header starting with [>], the body not empty
    and not starting with [>]. *)
Definition group_ok (hb : string * string) : Prop :=
  (trimmed (fst hb) /\ free_of LF (fst hb) /\ startswith (fst hb) ">" = true)
  /\ (trimmed (snd hb) /\ free_of LF (snd hb)
      /\ startswith (snd hb) ">" = false /\ snd hb <> "").

(** A line that a fallback output gives back as it is: trimmed, not
    empty, without a line feed. *)
Definition line_ok (l : string) : Prop :=
  trimmed l /\ l <> "" /\ free_of LF l.

(** A FASTQ read of the fallback whose four lines are given back as
    they are. *)
Definition fastq_read_ok (r : Read) : Prop :=
  exists l1 l2 l3 l4,
    r = (upper (strip l2), [l1; l2; l3; l4])
    /\ line_ok l1 /\ line_ok l2 /\ line_ok l3 /\ line_ok l4.

Module CleanFastq.

(** Two complete records, no blank and no padded line. *)
Definition reads : string :=
  "@r1" ++ String LF ("TTACGTACGTAA" ++ String LF ("+" ++ String LF
    ("IIIIIIIIIIII" ++ String LF ("@r2" ++ String LF ("GGGG" ++ String LF
      ("+" ++ String LF "IIII")))))).

(** The second record discarded, the first one kept with an empty
    quality line. *)
Definition blank_quality : string :=
  "@r1" ++ String LF ("A" ++ String LF ("+" ++ String LF
    (String LF ("@r2" ++ String LF ("C" ++ String LF
      ("+" ++ String LF "I")))))).

End CleanFastq.

(** Which key a line sets, by the precedence of the [if]/[elif] chain. *)
Definition sets_total (line : string) : bool :=
  contains line "Total reads:".

Definition sets_kept (line : string) : bool :=
  negb (contains line "Total reads:") && contains line "Reads kept:".

Definition sets_discarded (line : string) : bool :=
  negb (contains line "Total reads:") && negb (contains line "Reads kept:")
  && contains line "Reads discarded:".

(** A character of a formatted count: a digit or a comma. *)
Definition number_char (c : ascii) : bool := is_digit c || Ascii.eqb c ",".

(** A non-empty text of digits and commas. *)
Definition number_text (s : string) : Prop :=
  Forall (fun c => number_char c = true) (list_ascii_of_string s) /\ s <> "".

(** * Properties *)

(** ** Strings *)

Lemma str_app_nil_r (s : string) : s ++ "" = s.
Proof. induction s as [|c s IH]; simpl; [reflexivity | now rewrite IH]. Qed.

Lemma str_app_assoc (s t u : string) : (s ++ t) ++ u = s ++ (t ++ u).
Proof. induction s as [|c s IH]; simpl; [reflexivity | now rewrite IH]. Qed.

Lemma truthy_true (s : string) : truthy s = true <-> s <> "".
Proof. destruct s; simpl; split; congruence. Qed.

Lemma truthy_app_l (s t : string) : truthy s = true -> truthy (s ++ t) = true.
Proof. destruct s; simpl; congruence. Qed.

Lemma prefix_app (a s : string) :
  String.prefix a s = true <-> exists post, s = a ++ post.
Proof.
  revert s; induction a as [|c a IH]; intros s.
  - destruct s; simpl; split; eauto.
  - destruct s as [|d s]; simpl.
    + split; [discriminate | intros [post H]; discriminate].
    + destruct (ascii_dec c d) as [->|Hcd].
      * rewrite IH. split; intros [post H]; exists post.
        -- now rewrite H.
        -- now injection H.
      * split; [discriminate | intros [post H]; injection H; congruence].
Qed.

(** [contains] decides literal substring occurrence. *)
Lemma contains_spec (s a : string) :
  contains s a = true <-> is_substring a s.
Proof.
  unfold is_substring. induction s as [|c s IH].
  - cbn [contains]. rewrite orb_false_r, prefix_app. split.
    + intros [post H]. now exists "", post.
    + intros [pre [post H]]. destruct pre; simpl in H.
      * now exists post.
      * discriminate.
  - cbn [contains]. rewrite orb_true_iff, IH, prefix_app. split.
    + intros [[post H] | [pre [post H]]].
      * now exists "", post.
      * exists (String c pre), post. simpl. now rewrite H.
    + intros [pre [post H]]. destruct pre as [|d pre]; simpl in H.
      * left. now exists post.
      * right. injection H as _ H. now exists pre, post.
Qed.

Lemma substring_hit_spec (adapters : list string) (seq : string) :
  substring_hit adapters seq = true <->
  exists adapter, In adapter adapters /\ is_substring adapter seq.
Proof.
  unfold substring_hit, any. rewrite existsb_exists.
  split; intros [a [Hin H]]; exists a; split; auto; now apply contains_spec.
Qed.

(** The primitives on small inputs. *)
Example strip_example :
  strip (String LF "  >a b " ++ String LF " ") = ">a b".
Proof. reflexivity. Qed.

Example split_lines_example :
  split_lines ("a" ++ String LF (String LF "b")) = ["a"; ""; "b"]
  /\ split_lines "" = [""].
Proof. split; reflexivity. Qed.

Example upper_example : upper "acgtN-x" = "ACGTN-X".
Proof. reflexivity. Qed.

Example py_range_example : py_range 0 10 4 = [0; 4; 8]%nat.
Proof. reflexivity. Qed.

(** [range(start, stop, step)] holds the numbers [start + k * step] below
    [stop], so the fuel of [py_range] is enough. *)
Lemma range_from_spec (step : nat) :
  (0 < step)%nat ->
  forall fuel start stop i,
    (stop - start <= fuel)%nat ->
    In i (range_from fuel start stop step)
    <-> exists k, i = (start + k * step)%nat /\ (i < stop)%nat.
Proof.
  intros Hstep. induction fuel as [|fuel IH]; intros start stop i Hfuel.
  - simpl. split; [tauto |]. intros (k & -> & Hlt). lia.
  - cbn [range_from]. destruct (Nat.ltb_spec start stop) as [Hlt|Hge].
    + cbn [In]. rewrite IH by lia. split.
      * intros [<- | (k & -> & Hi)].
        -- exists 0%nat. split; [lia | exact Hlt].
        -- exists (S k). split; [simpl; lia | exact Hi].
      * intros ([|k] & -> & Hi).
        -- left. lia.
        -- right. exists k. split; [simpl; lia | exact Hi].
    + split; [intros [] |]. intros (k & -> & Hi). lia.
Qed.

Lemma py_range_spec (start stop step i : nat) :
  (0 < step)%nat ->
  In i (py_range start stop step)
  <-> exists k, i = (start + k * step)%nat /\ (i < stop)%nat.
Proof.
  intros Hstep. unfold py_range. apply range_from_spec; [exact Hstep | lia].
Qed.

(** ** Reverse complement *)

Lemma complement_ACGT (c : ascii) :
  is_ACGT c = true -> complement (complement c) = c /\ is_ACGT (complement c) = true.
Proof.
  intros H. unfold is_ACGT in H.
  rewrite !orb_true_iff, !Ascii.eqb_eq in H.
  destruct H as [[[-> | ->] | ->] | ->]; split; reflexivity.
Qed.

(** C9. For every sequence [S] over the alphabet {A,C,G,T}, taking the
    reverse complement twice gives [S] back:
    [reverse_complement (reverse_complement S) = S]. *)
Theorem reverse_complement_involutive (S : string) :
  over_ACGT S -> reverse_complement (reverse_complement S) = S.
Proof.
  unfold over_ACGT, reverse_complement. intros H.
  rewrite list_ascii_of_string_of_list_ascii.
  rewrite map_rev, rev_involutive, map_map.
  rewrite <- (string_of_list_ascii_of_string S) at 2. f_equal.
  induction H as [|c l Hc _ IH]; simpl.
  - reflexivity.
  - rewrite IH. f_equal. now apply complement_ACGT.
Qed.

Lemma reverse_complement_involutive_witness :
  over_ACGT "AACGT" /\
  reverse_complement "AACGT" = "ACGTT" /\
  reverse_complement (reverse_complement "AACGT") = "AACGT".
Proof.
  assert (H : over_ACGT "AACGT")
    by (unfold over_ACGT; simpl; repeat constructor).
  split; [exact H | split; [reflexivity |]].
  exact (reverse_complement_involutive "AACGT" H).
Defined.

(** ** Adapter loading *)

Lemma append_adapter_emit (adapters : list string) (s : string) :
  append_adapter adapters s = (adapters ++ emit_pair s)%list.
Proof.
  unfold append_adapter, emit_pair, adapter_pair.
  destruct (truthy s); [now rewrite <- app_assoc | now rewrite app_nil_r].
Qed.

Lemma append_forward_emit (adapters : list string) (s : string) :
  append_forward adapters s = (adapters ++ emit_forward s)%list.
Proof.
  unfold append_forward, emit_forward.
  destruct (truthy s); [reflexivity | now rewrite app_nil_r].
Qed.

(** Loop invariant of [load_adapters]: the pending sequence is completed
    by the body that precedes the next header, and each later record is
    emitted in turn. *)
Lemma load_adapters_loop_groups (lines adapters : list string)
    (current_seq : string) :
  (let '(adapters', current_seq') :=
     load_adapters_loop lines adapters current_seq in
   append_adapter adapters' current_seq')
  = (let '(body, recs) := group_records lines in
     (adapters ++ emit_pair (current_seq ++ body)
        ++ flat_map emit_pair recs)%list).
Proof.
  revert adapters current_seq.
  induction lines as [|line rest IH]; intros adapters current_seq.
  - simpl. now rewrite str_app_nil_r, app_nil_r, append_adapter_emit.
  - cbn [load_adapters_loop group_records]. unfold is_header.
    destruct (group_records rest) as [body recs] eqn:Hg.
    destruct (startswith (strip line) ">").
    + rewrite IH. rewrite append_adapter_emit, str_app_nil_r.
      cbn [flat_map append]. now rewrite <- !app_assoc.
    + rewrite IH. now rewrite str_app_assoc.
Qed.

Lemma fallback_adapters_loop_groups (lines adapters : list string)
    (current_seq : string) :
  (let '(adapters', current_seq') :=
     fallback_adapters_loop lines adapters current_seq in
   append_forward adapters' current_seq')
  = (let '(body, recs) := group_records lines in
     (adapters ++ emit_forward (current_seq ++ body)
        ++ flat_map emit_forward recs)%list).
Proof.
  revert adapters current_seq.
  induction lines as [|line rest IH]; intros adapters current_seq.
  - simpl. now rewrite str_app_nil_r, app_nil_r, append_forward_emit.
  - cbn [fallback_adapters_loop group_records]. unfold is_header.
    destruct (group_records rest) as [body recs] eqn:Hg.
    destruct (startswith (strip line) ">").
    + rewrite IH. rewrite append_forward_emit, str_app_nil_r.
      cbn [flat_map append]. now rewrite <- !app_assoc.
    + rewrite IH. now rewrite str_app_assoc.
Qed.

Lemma flat_map_emit_pair (recs : list string) :
  flat_map emit_pair recs = flat_map adapter_pair (filter truthy recs).
Proof.
  induction recs as [|s recs IH]; simpl; [reflexivity |].
  unfold emit_pair at 1. destruct (truthy s); simpl; now rewrite IH.
Qed.

Lemma flat_map_emit_forward (recs : list string) :
  flat_map emit_forward recs = map upper (filter truthy recs).
Proof.
  induction recs as [|s recs IH]; simpl; [reflexivity |].
  unfold emit_forward at 1. destruct (truthy s); simpl; now rewrite IH.
Qed.

Lemma group_records_leading_header (line : string) (rest : list string) :
  is_header line = true -> fst (group_records (line :: rest)) = "".
Proof.
  intros H. cbn [group_records]. destruct (group_records rest).
  now rewrite H.
Qed.

Lemma load_adapters_flat_map (fasta_content : string) :
  load_adapters fasta_content = flat_map emit_pair (panel_records fasta_content).
Proof.
  unfold load_adapters, panel_records.
  pose proof (load_adapters_loop_groups
                (split_lines (strip fasta_content)) [] "") as H.
  cbv zeta in H. rewrite H. clear H.
  destruct (split_lines (strip fasta_content)) as [|line rest] eqn:Hl.
  - reflexivity.
  - pose proof (group_records_leading_header line rest) as Hh.
    destruct (group_records (line :: rest)) as [body recs].
    cbn [app append]. destruct (is_header line).
    + simpl in Hh. rewrite (Hh eq_refl). reflexivity.
    + reflexivity.
Qed.

Lemma fallback_adapters_flat_map (adapter_content : string) :
  fallback_adapters adapter_content
  = flat_map emit_forward (panel_records adapter_content).
Proof.
  unfold fallback_adapters, panel_records.
  pose proof (fallback_adapters_loop_groups
                (split_lines (strip adapter_content)) [] "") as H.
  cbv zeta in H. rewrite H. clear H.
  destruct (split_lines (strip adapter_content)) as [|line rest] eqn:Hl.
  - reflexivity.
  - pose proof (group_records_leading_header line rest) as Hh.
    destruct (group_records (line :: rest)) as [body recs].
    cbn [app append]. destruct (is_header line).
    + simpl in Hh. rewrite (Hh eq_refl). reflexivity.
    + reflexivity.
Qed.

(** The fallback's adapters are the forward sequences of the panel. *)
Lemma fallback_adapters_forward (adapter_content : string) :
  fallback_adapters adapter_content
  = map upper (filter truthy (panel_records adapter_content)).
Proof.
  rewrite fallback_adapters_flat_map. apply flat_map_emit_forward.
Qed.

Lemma filter_all_true {A} (f : A -> bool) (l : list A) :
  Forall (fun x => f x = true) l -> filter f l = l.
Proof.
  induction 1 as [|x l Hx _ IH]; simpl; [reflexivity |].
  now rewrite Hx, IH.
Qed.

Lemma length_flat_map_pair (recs : list string) :
  List.length (flat_map adapter_pair recs) = 2 * List.length recs.
Proof. induction recs as [|s recs IH]; simpl in *; lia. Qed.

(** C5. [load_adapters] appends, for each record of the panel in input
    order, the upper-cased sequence immediately followed by its reverse
    complement; records with an empty sequence contribute nothing; hence
    a panel whose N records all have non-empty sequences loads exactly
    2 * N adapters. *)
Theorem load_adapters_pairs (fasta_content : string) :
  load_adapters fasta_content
  = flat_map adapter_pair (filter truthy (panel_records fasta_content))
  /\ List.length (load_adapters fasta_content)
     = 2 * List.length (filter truthy (panel_records fasta_content))
  /\ (Forall (fun s => s <> "") (panel_records fasta_content) ->
      load_adapters fasta_content
      = flat_map adapter_pair (panel_records fasta_content)
      /\ List.length (load_adapters fasta_content)
         = 2 * List.length (panel_records fasta_content)).
Proof.
  assert (E : load_adapters fasta_content
              = flat_map adapter_pair
                  (filter truthy (panel_records fasta_content)))
    by (rewrite load_adapters_flat_map; apply flat_map_emit_pair).
  split; [exact E | split].
  - rewrite E. apply length_flat_map_pair.
  - intros H. rewrite E, filter_all_true.
    + split; [reflexivity | apply length_flat_map_pair].
    + eapply Forall_impl; [| exact H]. intros s Hs. now apply truthy_true.
Qed.

Lemma load_adapters_pairs_witness :
  let panel := ">A1" ++ String LF ("acg" ++ String LF ("T" ++ String LF
                 (">A2" ++ String LF "GGA"))) in
  panel_records panel = ["acgT"; "GGA"] /\
  load_adapters panel = ["ACGT"; "ACGT"; "GGA"; "TCC"] /\
  List.length (load_adapters panel) = 2 * List.length (panel_records panel).
Proof.
  cbv zeta. split; [reflexivity | split; [reflexivity |]].
  apply (load_adapters_pairs
           (">A1" ++ String LF ("acg" ++ String LF ("T" ++ String LF
              (">A2" ++ String LF "GGA"))))).
  repeat constructor; discriminate.
Defined.

Lemma group_records_headerless (lines : list string) :
  Forall (fun l => startswith l ">" = false) (map strip lines) ->
  group_records lines = (concat_all (map strip lines), []).
Proof.
  induction lines as [|line rest IH]; simpl; intros H.
  - reflexivity.
  - inversion H as [|? ? Hl Hrest]; subst.
    rewrite (IH Hrest). unfold is_header. now rewrite Hl.
Qed.

Lemma concat_all_truthy (ls : list string) :
  Exists (fun l => l <> "") ls -> truthy (concat_all ls) = true.
Proof.
  induction 1 as [l ls Hl | l ls _ IH]; simpl.
  - apply truthy_app_l. now apply truthy_true.
  - destruct l; simpl; [exact IH | reflexivity].
Qed.

(** C10. For an adapter text with no header line and at least one
    non-empty line (lines taken as the loader reads them: the lines of
    the stripped text, each stripped), [load_adapters] returns exactly two
    adapters, the upper-cased concatenation of all stripped lines and its
    reverse complement, while the fallback's own parser returns exactly
    one, the forward sequence. *)
Theorem headerless_panel (content : string) :
  Forall (fun l => startswith l ">" = false) (stripped_lines content) ->
  Exists (fun l => l <> "") (stripped_lines content) ->
  load_adapters content
  = [upper (concat_all (stripped_lines content));
     reverse_complement (upper (concat_all (stripped_lines content)))]
  /\ fallback_adapters content
     = [upper (concat_all (stripped_lines content))].
Proof.
  unfold stripped_lines. intros Hh Hne.
  assert (Hp : panel_records content
               = [concat_all (map strip (split_lines (strip content)))]).
  { unfold panel_records. rewrite (group_records_headerless _ Hh).
    destruct (split_lines (strip content)) as [|line rest] eqn:Hl.
    - inversion Hne.
    - inversion Hh as [|? ? Hline _]; subst.
      unfold is_header. now rewrite Hline. }
  pose proof (concat_all_truthy _ Hne) as Ht.
  rewrite load_adapters_flat_map, fallback_adapters_flat_map, Hp.
  simpl. unfold emit_pair, emit_forward, adapter_pair.
  now rewrite Ht.
Qed.

Lemma headerless_panel_witness :
  let content := "acgt" ++ String LF ("  " ++ String LF " GGa ") in
  stripped_lines content = ["acgt"; ""; "GGa"] /\
  load_adapters content = ["ACGTGGA"; "TCCACGT"] /\
  fallback_adapters content = ["ACGTGGA"].
Proof.
  cbv zeta. split; [reflexivity |].
  apply (headerless_panel ("acgt" ++ String LF ("  " ++ String LF " GGa "))).
  - repeat constructor.
  - apply Exists_cons_hd. discriminate.
Defined.

(** ** The fallback loops *)

Lemma fastq_body_short (adapters lines : list string) (i : nat)
    (st : FilterState) :
  (List.length lines <= i + 3)%nat -> fastq_body adapters lines i st = Some st.
Proof.
  intros H. unfold fastq_body.
  destruct (Nat.ltb_spec (i + 3) (List.length lines)); [lia | reflexivity].
Qed.

Lemma fastq_body_block (adapters pre rest : list string)
    (l1 l2 l3 l4 : string) (st : FilterState) :
  fastq_body adapters (pre ++ l1 :: l2 :: l3 :: l4 :: rest)%list
    (List.length pre) st
  = Some (route_read adapters st (upper (strip l2), [l1; l2; l3; l4])).
Proof.
  unfold fastq_body, route_read.
  destruct (Nat.ltb_spec (List.length pre + 3)
              (List.length (pre ++ l1 :: l2 :: l3 :: l4 :: rest)%list)) as [_|H].
  - rewrite nth_error_app2 by lia.
    replace (List.length pre + 1 - List.length pre)%nat with 1%nat by lia.
    rewrite skipn_app, skipn_all, Nat.sub_diag. reflexivity.
  - rewrite length_app in H. simpl in H. lia.
Qed.

(** The indexed FASTQ loop processes exactly the complete groups of four
    lines, in order, and never raises. *)
Lemma fastq_for_each (adapters : list string) :
  forall (fuel : nat) (pre rest : list string) (st : FilterState),
    (List.length rest <= fuel)%nat ->
    for_each (fastq_body adapters (pre ++ rest)%list)
      (range_from fuel (List.length pre) (List.length (pre ++ rest)%list) 4) st
    = Some (route_all adapters (fastq_reads rest) st).
Proof.
  induction fuel as [|fuel IH]; intros pre rest st Hfuel.
  - destruct rest; [reflexivity | simpl in Hfuel; lia].
  - cbn [range_from].
    destruct (Nat.ltb_spec (List.length pre) (List.length (pre ++ rest)%list))
      as [Hlt|Hge].
    + destruct rest as [|l1 [|l2 [|l3 [|l4 rest]]]].
      { rewrite app_nil_r in Hlt. lia. }
      1-3: cbn [for_each]; rewrite fastq_body_short
             by (rewrite length_app; simpl; lia);
           cbn [bind]; destruct fuel as [|fuel']; cbn [range_from];
           [reflexivity |];
           match goal with
           | |- context [Nat.ltb ?a ?b] =>
               destruct (Nat.ltb_spec a b) as [Hc|_];
               [rewrite length_app in Hc; simpl in Hc; lia | reflexivity]
           end.
      cbn [for_each]. rewrite fastq_body_block. cbn [bind].
      replace (pre ++ l1 :: l2 :: l3 :: l4 :: rest)%list
        with ((pre ++ [l1; l2; l3; l4]) ++ rest)%list
        by (now rewrite <- app_assoc).
      replace (List.length pre + 4)%nat
        with (List.length (pre ++ [l1; l2; l3; l4])%list)
        by (rewrite length_app; reflexivity).
      rewrite IH by (simpl in Hfuel; lia). reflexivity.
    + destruct rest; [reflexivity |].
      rewrite length_app in Hge. simpl in Hge. lia.
Qed.

Lemma fastq_loop_reads (adapters lines : list string) :
  fastq_loop adapters lines
  = Some (route_all adapters (fastq_reads lines) initial_state).
Proof.
  unfold fastq_loop, py_range.
  exact (fastq_for_each adapters (List.length lines) [] lines initial_state
           (le_n _)).
Qed.

Lemma fasta_flush_group (adapters : list string) (h s : string)
    (st : FilterState) :
  fasta_flush adapters h s st = route_all adapters (group_reads [(h, s)]) st.
Proof.
  unfold fasta_flush, group_reads. simpl.
  destruct (truthy h && truthy s); reflexivity.
Qed.

Lemma route_all_app (adapters : list string) (r1 r2 : list Read)
    (st : FilterState) :
  route_all adapters (r1 ++ r2) st
  = route_all adapters r2 (route_all adapters r1 st).
Proof. apply fold_left_app. Qed.

Lemma group_reads_cons (g : string * string) (gs : list (string * string)) :
  group_reads (g :: gs) = (group_reads [g] ++ group_reads gs)%list.
Proof.
  unfold group_reads. simpl.
  destruct (truthy (fst g) && truthy (snd g)); reflexivity.
Qed.

(** Loop invariant of the FASTA branch: the pending record is completed
    by the body that precedes the next header. *)
Lemma fasta_loop_groups (adapters lines : list string) :
  forall (current_header current_seq : string) (st : FilterState),
    (let '(h, s, st') :=
       fasta_loop adapters lines current_header current_seq st in
     fasta_flush adapters h s st')
    = (let '(body, recs) := fasta_groups lines in
       route_all adapters
         (group_reads ((current_header, current_seq ++ body) :: recs)) st).
Proof.
  induction lines as [|line rest IH]; intros h s st.
  - simpl. rewrite str_app_nil_r. apply fasta_flush_group.
  - cbn [fasta_loop fasta_groups]. unfold is_header.
    destruct (fasta_groups rest) as [body recs] eqn:Hg.
    destruct (startswith (strip line) ">").
    + rewrite IH, str_app_nil_r.
      rewrite (group_reads_cons (h, s)), route_all_app.
      now rewrite <- fasta_flush_group.
    + rewrite IH. now rewrite str_app_assoc.
Qed.

Lemma fasta_groups_headers (lines : list string) :
  Forall (fun hb => truthy (fst hb) = true) (snd (fasta_groups lines)).
Proof.
  induction lines as [|line rest IH]; simpl; [constructor |].
  destruct (fasta_groups rest) as [body recs]. unfold is_header, startswith.
  destruct (String.prefix ">" (strip line)) eqn:Hp; simpl in *; [| exact IH].
  constructor; [| exact IH]. simpl.
  destruct (strip line); [discriminate | reflexivity].
Qed.

Lemma fasta_loop_reads (adapters lines : list string) :
  (let '(h, s, st') := fasta_loop adapters lines "" "" initial_state in
   fasta_flush adapters h s st')
  = route_all adapters (fasta_reads lines) initial_state.
Proof.
  rewrite fasta_loop_groups. unfold fasta_reads.
  pose proof (fasta_groups_headers lines) as Hh.
  destruct (fasta_groups lines) as [body recs]. simpl in Hh.
  unfold group_reads. simpl. do 2 f_equal.
  induction Hh as [|g gs Hg _ IH]; simpl; [reflexivity |].
  rewrite Hg. simpl. destruct (truthy (snd g)); now rewrite IH.
Qed.

Lemma route_all_filter (adapters : list string) (reads : list Read) :
  forall st : FilterState,
    route_all adapters reads st
    = mkFilterState
        (kept_lines st ++ block_lines (filter (clean adapters) reads))
        (discarded_lines st ++ block_lines (filter (hit adapters) reads))
        (kept_count st + List.length (filter (clean adapters) reads))
        (discarded_count st + List.length (filter (hit adapters) reads))
        (processed st + List.length reads).
Proof.
  unfold route_all, block_lines.
  induction reads as [|r reads IH]; intros st.
  - destruct st. simpl. rewrite !app_nil_r, !Nat.add_0_r. reflexivity.
  - cbn [fold_left]. rewrite IH. unfold route_read, clean, hit.
    cbn [filter]. destruct (substring_hit adapters (fst r)); simpl;
      rewrite <- ?app_assoc; f_equal; lia.
Qed.

(** ** Order-preserving partitions *)

Lemma Interleave_filter {A} (f : A -> bool) (l : list A) :
  Interleave (filter (fun x => negb (f x)) l) (filter f l) l.
Proof.
  induction l as [|x l IH]; simpl.
  - constructor.
  - destruct (f x); simpl; now constructor.
Qed.

Lemma Interleave_length {A} (l r m : list A) :
  Interleave l r m -> (List.length l + List.length r = List.length m)%nat.
Proof. induction 1; simpl; lia. Qed.

Lemma filter_none {A} (f : A -> bool) (l : list A) :
  (forall x, In x l -> f x = false) -> filter f l = [].
Proof.
  induction l as [|x l IH]; simpl; intros H; [reflexivity |].
  rewrite (H x (or_introl eq_refl)). apply IH. intros y Hy. apply H. now right.
Qed.

Section FallbackRun.

Variable path_suffix : string -> string.

(** The fallback as one routing pass: it never raises, and its three
    results are determined by the reads and the forward adapters. *)
Lemma simple_filter_fallback_reads
    (adapter_content reads_content reads_filename : string)
    (params : Params) :
  simple_filter_fallback path_suffix adapter_content reads_content
    reads_filename params
  = let adapters := fallback_adapters adapter_content in
    let fmt := file_format_from_name path_suffix reads_filename in
    let reads := fallback_reads fmt reads_content in
    Some (lines_content (block_lines (filter (clean adapters) reads)),
          lines_content (block_lines (filter (hit adapters) reads)),
          mkRunLog SimpleSubstring params reads_filename fmt
            (List.length reads) (List.length adapters)
            (List.length (filter (clean adapters) reads))
            (List.length (filter (hit adapters) reads))).
Proof.
  unfold simple_filter_fallback, fallback_reads. cbv zeta.
  destruct (file_format_from_name path_suffix reads_filename).
  - pose proof (fasta_loop_reads (fallback_adapters adapter_content)
                  (split_lines (strip reads_content))) as H.
    destruct (fasta_loop _ _ "" "" initial_state) as [[h s] st'].
    rewrite H, route_all_filter. reflexivity.
  - rewrite fastq_loop_reads, route_all_filter. reflexivity.
Qed.

End FallbackRun.

(** ** The alignment classifier *)

Section FullRun.

Variable path_suffix : string -> string.
Variable Matrix : Type.
Variable matrix_create : string -> Z -> Z -> Matrix.
Variable sw_scan_16 : string -> string -> Z -> Z -> Matrix -> Z.
Variable SeqIO_parse : string -> Format -> option (list SeqRecord).
Variable SeqIO_write : list SeqRecord -> Format -> string.

Local Abbreviation score := (adapter_score sw_scan_16).
Local Abbreviation scan := (scan_adapters sw_scan_16).
Local Abbreviation contaminated := (is_contaminated sw_scan_16).
Local Abbreviation below := (below_threshold Matrix sw_scan_16).
Local Abbreviation reaches := (reaches_threshold Matrix sw_scan_16).
Local Abbreviation run :=
  (filter_reads_web path_suffix matrix_create sw_scan_16
     SeqIO_parse SeqIO_write).

Lemma geb_reaches params matrix seq adapter :
  (score params matrix seq adapter >=? p_min_score params)%Z = true
  <-> reaches params matrix seq adapter.
Proof. unfold reaches_threshold. rewrite Z.geb_le. lia. Qed.

Lemma geb_below params matrix seq adapter :
  (score params matrix seq adapter >=? p_min_score params)%Z = false
  <-> below params matrix seq adapter.
Proof.
  unfold below_threshold.
  destruct (Z.geb_spec (score params matrix seq adapter) (p_min_score params));
    split; intros; try discriminate; try reflexivity; lia.
Qed.

(** What the scan returns, by cases on the first adapter that reaches
    the threshold. *)
Lemma scan_adapters_cases params matrix seq adapters :
  (exists pre adapter post,
      adapters = (pre ++ adapter :: post)%list
      /\ Forall (below params matrix seq) pre
      /\ reaches params matrix seq adapter
      /\ scan params matrix seq adapters = (true, (pre ++ [adapter])%list))
  \/ (Forall (below params matrix seq) adapters
      /\ scan params matrix seq adapters = (false, adapters)).
Proof.
  induction adapters as [|a rest IH]; cbn [scan_adapters].
  - right. split; [constructor | reflexivity].
  - destruct (score params matrix seq a >=? p_min_score params)%Z eqn:Ha.
    + left. exists [], a, rest. repeat split; try constructor.
      now apply geb_reaches.
    + apply geb_below in Ha.
      destruct IH as [(pre & b & post & -> & Hpre & Hb & Hs) | [Hall Hs]];
        rewrite Hs.
      * left. exists (a :: pre), b, post. repeat split; auto.
      * right. split; [now constructor | reflexivity].
Qed.

Lemma scan_adapters_true params matrix seq adapters :
  fst (scan params matrix seq adapters) = true
  <-> exists adapter, In adapter adapters /\ reaches params matrix seq adapter.
Proof.
  destruct (scan_adapters_cases params matrix seq adapters)
    as [(pre & a & post & -> & Hpre & Ha & Hs) | [Hall Hs]]; rewrite Hs; simpl.
  - split; [intros _ | reflexivity].
    exists a. split; [apply in_elt | exact Ha].
  - split; [discriminate |]. intros (a & Hin & Ha).
    rewrite Forall_forall in Hall. specialize (Hall a Hin).
    unfold below_threshold, reaches_threshold in *. lia.
Qed.




(** The classification loop is an order-preserving partition. *)
Lemma classify_loop_filter params matrix adapters recs :
  forall kept_reads discarded_reads processed,
    classify_loop sw_scan_16 params matrix adapters recs
      kept_reads discarded_reads processed
    = ((kept_reads
          ++ filter (fun r => negb (contaminated params matrix adapters r)) recs)%list,
       (discarded_reads
          ++ filter (contaminated params matrix adapters) recs)%list,
       (processed + List.length recs)%nat).
Proof.
  induction recs as [|rec rest IH]; intros kept discarded processed.
  - simpl. now rewrite !app_nil_r, Nat.add_0_r.
  - cbn [classify_loop filter].
    destruct (contaminated params matrix adapters rec); rewrite IH;
      (f_equal; [f_equal |]); rewrite <- ?app_assoc; simpl;
      try reflexivity; lia.
Qed.

Lemma filter_reads_web_parsed
    (adapter_content reads_content reads_filename : string)
    (params : Params) (reads : list SeqRecord) :
  SeqIO_parse reads_content (file_format_from_name path_suffix reads_filename)
  = Some reads ->
  run true adapter_content reads_content reads_filename params
  = let adapters := load_adapters adapter_content in
    let matrix := matrix_create "ACGT" (p_match params) (p_mismatch params) in
    let fmt := file_format_from_name path_suffix reads_filename in
    let kept :=
      filter (fun r => negb (contaminated params matrix adapters r)) reads in
    let discarded := filter (contaminated params matrix adapters) reads in
    Some (SeqIO_write kept fmt, SeqIO_write discarded fmt,
          mkRunLog ParasailSmithWaterman params reads_filename fmt
            (List.length reads) (List.length adapters / 2)
            (List.length kept) (List.length discarded)).
Proof.
  intros H. unfold filter_reads_web. cbn [negb]. cbv zeta.
  rewrite H. cbn [bind]. rewrite classify_loop_filter. reflexivity.
Qed.

Lemma filter_negb_length {A} (f : A -> bool) (l : list A) :
  (List.length (filter (fun x => negb (f x)) l) + List.length (filter f l)
   = List.length l)%nat.
Proof. apply Interleave_length, Interleave_filter. Qed.

(** C2. Every processed read is routed to exactly one of the two
    partitions and each partition keeps the input order (the reads are
    an order-preserving merge of the kept and the discarded reads), and
    the kept and discarded counts add up to the total, which counts the
    parsed reads only: in the fallback, a truncated last FASTQ group and
    a FASTA header with an empty body are no reads. *)
Theorem partition_order_and_counts
    (adapter_content reads_content reads_filename : string)
    (params : Params) :
  (forall reads,
      SeqIO_parse reads_content
        (file_format_from_name path_suffix reads_filename) = Some reads ->
      exists kept discarded log,
        run true adapter_content reads_content reads_filename params
        = Some (SeqIO_write kept
                  (file_format_from_name path_suffix reads_filename),
                SeqIO_write discarded
                  (file_format_from_name path_suffix reads_filename), log)
        /\ Interleave kept discarded reads
        /\ log_reads_kept log = List.length kept
        /\ log_reads_discarded log = List.length discarded
        /\ log_total_reads log = List.length reads
        /\ (log_reads_kept log + log_reads_discarded log
            = log_total_reads log)%nat)
  /\ (exists kept discarded log,
        run false adapter_content reads_content reads_filename params
        = Some (lines_content (block_lines kept),
                lines_content (block_lines discarded), log)
        /\ Interleave kept discarded
             (fallback_reads
                (file_format_from_name path_suffix reads_filename)
                reads_content)
        /\ log_reads_kept log = List.length kept
        /\ log_reads_discarded log = List.length discarded
        /\ log_total_reads log
           = List.length
               (fallback_reads
                  (file_format_from_name path_suffix reads_filename)
                  reads_content)
        /\ (log_reads_kept log + log_reads_discarded log
            = log_total_reads log)%nat).
Proof.
  split.
  - intros reads H.
    rewrite (filter_reads_web_parsed _ _ _ _ _ H). cbv zeta.
    do 3 eexists. split; [reflexivity |].
    split; [apply Interleave_filter |]. cbn.
    repeat split. apply filter_negb_length.
  - unfold filter_reads_web. cbn [negb].
    rewrite simple_filter_fallback_reads. cbv zeta.
    do 3 eexists. split; [reflexivity |].
    split; [apply Interleave_filter |]. cbn.
    repeat split. apply filter_negb_length.
Qed.

Lemma filter_length_le {A} (f g : A -> bool) (l : list A) :
  (forall x, f x = true -> g x = true) ->
  (List.length (filter f l) <= List.length (filter g l))%nat.
Proof.
  intros H. induction l as [|x l IH]; simpl; [lia |].
  destruct (f x) eqn:Hf.
  - rewrite (H x Hf). simpl. lia.
  - destruct (g x); simpl; lia.
Qed.

Lemma contaminated_antitone params matrix adapters rec (t1 t2 : Z) :
  (t1 <= t2)%Z ->
  contaminated (with_min_score params t2) matrix adapters rec = true ->
  contaminated (with_min_score params t1) matrix adapters rec = true.
Proof.
  intros Ht. unfold is_contaminated. rewrite !scan_adapters_true.
  intros (a & Hin & Ha). exists a. split; [exact Hin |].
  unfold reaches_threshold, adapter_score in *. simpl in *. lia.
Qed.

(** C6. For a fixed adapter panel, read set and scoring parameters, and
    thresholds [t1 <= t2], the run with [min_score = t2] discards at
    most as many reads as the run with [min_score = t1]. *)
Theorem threshold_monotone (DEPENDENCIES_AVAILABLE : bool)
    (adapter_content reads_content reads_filename : string)
    (params : Params) (t1 t2 : Z) (reads : list SeqRecord) :
  (t1 <= t2)%Z ->
  SeqIO_parse reads_content
    (file_format_from_name path_suffix reads_filename) = Some reads ->
  exists d1 d2,
    discarded_of (run DEPENDENCIES_AVAILABLE adapter_content reads_content
                    reads_filename (with_min_score params t1)) = Some d1
    /\ discarded_of (run DEPENDENCIES_AVAILABLE adapter_content
                       reads_content reads_filename
                       (with_min_score params t2)) = Some d2
    /\ (d2 <= d1)%nat.
Proof.
  intros Ht H. destruct DEPENDENCIES_AVAILABLE.
  - rewrite !(filter_reads_web_parsed _ _ _ _ _ H). cbv zeta.
    do 2 eexists. split; [reflexivity | split; [reflexivity |]].
    cbn. apply filter_length_le. intros rec.
    now apply contaminated_antitone.
  - unfold filter_reads_web. cbn [negb].
    rewrite !simple_filter_fallback_reads. cbv zeta.
    do 2 eexists. split; [reflexivity | split; [reflexivity |]].
    cbn. apply Nat.le_refl.
Qed.

Lemma contaminated_no_adapters params matrix rec :
  contaminated params matrix [] rec = false.
Proof. reflexivity. Qed.

Lemma filter_all {A} (f : A -> bool) (l : list A) :
  (forall x, f x = true) -> filter f l = l.
Proof.
  intros H. induction l as [|x l IH]; simpl; [reflexivity |].
  now rewrite H, IH.
Qed.

(** C7. An empty adapter set is not an error: the classification loop
    keeps every read, and a run whose panel loads no adapter returns
    all the reads as kept, nothing as discarded, and reports
    [discarded = 0] and [kept = total], with the aligner and with the
    fallback. *)
Theorem empty_panel_all_clean
    (adapter_content reads_content reads_filename : string)
    (params : Params) :
  (forall matrix recs,
      classify_loop sw_scan_16 params matrix [] recs [] [] 0
      = (recs, [], List.length recs))
  /\ (load_adapters adapter_content = [] ->
      forall reads,
        SeqIO_parse reads_content
          (file_format_from_name path_suffix reads_filename) = Some reads ->
        run true adapter_content reads_content reads_filename params
        = Some (SeqIO_write reads
                  (file_format_from_name path_suffix reads_filename),
                SeqIO_write []
                  (file_format_from_name path_suffix reads_filename),
                mkRunLog ParasailSmithWaterman params reads_filename
                  (file_format_from_name path_suffix reads_filename)
                  (List.length reads) 0 (List.length reads) 0))
  /\ (fallback_adapters adapter_content = [] ->
      run false adapter_content reads_content reads_filename params
      = Some (lines_content
                (block_lines
                   (fallback_reads
                      (file_format_from_name path_suffix reads_filename)
                      reads_content)),
              "",
              mkRunLog SimpleSubstring params reads_filename
                (file_format_from_name path_suffix reads_filename)
                (List.length
                   (fallback_reads
                      (file_format_from_name path_suffix reads_filename)
                      reads_content))
                0
                (List.length
                   (fallback_reads
                      (file_format_from_name path_suffix reads_filename)
                      reads_content))
                0)).
Proof.
  split; [| split].
  - intros matrix recs. rewrite classify_loop_filter. cbn [app Nat.add].
    rewrite filter_all, filter_none by reflexivity. reflexivity.
  - intros Ha reads H.
    rewrite (filter_reads_web_parsed _ _ _ _ _ H). cbv zeta. rewrite Ha.
    rewrite filter_all, filter_none by reflexivity. reflexivity.
  - intros Ha. unfold filter_reads_web. cbn [negb].
    rewrite simple_filter_fallback_reads. cbv zeta. rewrite Ha.
    rewrite filter_all, filter_none by reflexivity. reflexivity.
Qed.

End FullRun.

(** ** Truncated FASTQ input *)

Lemma list_ind4 {A} (P : list A -> Prop) :
  P [] -> (forall a, P [a]) -> (forall a b, P [a; b]) ->
  (forall a b c, P [a; b; c]) ->
  (forall a b c d l, P l -> P (a :: b :: c :: d :: l)) ->
  forall l, P l.
Proof.
  intros H0 H1 H2 H3 H4. fix IH 1.
  intros [|a [|b [|c [|d l]]]];
    [apply H0 | apply H1 | apply H2 | apply H3 | apply H4, IH].
Qed.

Lemma div4_step (n : nat) : (S (S (S (S n))) / 4 = S (n / 4))%nat.
Proof.
  replace (S (S (S (S n)))) with (1 * 4 + n)%nat by lia.
  rewrite Nat.div_add_l by lia. lia.
Qed.

Lemma fastq_reads_length (lines : list string) :
  List.length (fastq_reads lines) = (List.length lines / 4)%nat.
Proof.
  induction lines as [| | | |l1 l2 l3 l4 rest IH] using list_ind4;
    try reflexivity.
  cbn [fastq_reads List.length]. now rewrite div4_step, IH.
Qed.

Lemma fastq_reads_complete (lines : list string) :
  fastq_reads (firstn (4 * (List.length lines / 4)) lines) = fastq_reads lines.
Proof.
  induction lines as [| | | |l1 l2 l3 l4 rest IH] using list_ind4;
    try reflexivity.
  cbn [List.length]. rewrite div4_step.
  replace (4 * S (List.length rest / 4))%nat
    with (S (S (S (S (4 * (List.length rest / 4)))))) by lia.
  cbn [firstn fastq_reads]. now rewrite IH.
Qed.

(** C8. In the fallback, a FASTQ text whose number of lines (the lines
    of the stripped text) is not a multiple of 4 raises no error: the
    last, incomplete group of 1 to 3 lines is dropped, the run is the run
    on the complete groups before it, and the processed, kept and
    discarded counts cover those groups only. *)
Theorem truncated_fastq_group_dropped (path_suffix : string -> string)
    (adapter_content reads_content reads_filename : string)
    (params : Params) :
  file_format_from_name path_suffix reads_filename = FASTQ ->
  (List.length (split_lines (strip reads_content)) mod 4 <> 0)%nat ->
  exists (complete dropped : list string) (st : FilterState),
    split_lines (strip reads_content) = (complete ++ dropped)%list
    /\ List.length complete
       = (4 * (List.length (split_lines (strip reads_content)) / 4))%nat
    /\ (0 < List.length dropped < 4)%nat
    /\ fastq_loop (fallback_adapters adapter_content)
         (split_lines (strip reads_content)) = Some st
    /\ fastq_loop (fallback_adapters adapter_content) complete = Some st
    /\ processed st
       = (List.length (split_lines (strip reads_content)) / 4)%nat
    /\ (kept_count st + discarded_count st
        = List.length (split_lines (strip reads_content)) / 4)%nat
    /\ simple_filter_fallback path_suffix adapter_content reads_content
         reads_filename params
       = Some (lines_content (kept_lines st),
               lines_content (discarded_lines st),
               mkRunLog SimpleSubstring params reads_filename FASTQ
                 (List.length (split_lines (strip reads_content)) / 4)
                 (List.length (fallback_adapters adapter_content))
                 (kept_count st) (discarded_count st)).
Proof.
  intros Hfmt Hmod.
  set (lines := split_lines (strip reads_content)) in *.
  set (adapters := fallback_adapters adapter_content).
  set (q := (List.length lines / 4)%nat).
  pose proof (Nat.div_mod_eq (List.length lines) 4) as Hdm.
  pose proof (Nat.mod_upper_bound (List.length lines) 4 ltac:(lia)) as Hub.
  exists (firstn (4 * q) lines), (skipn (4 * q) lines),
    (route_all adapters (fastq_reads lines) initial_state).
  split; [symmetry; apply firstn_skipn |].
  split; [rewrite length_firstn; unfold q; lia |].
  split; [rewrite length_skipn; unfold q; lia |].
  split; [apply fastq_loop_reads |].
  split; [rewrite fastq_loop_reads; unfold q;
          now rewrite fastq_reads_complete |].
  rewrite route_all_filter. cbn.
  split; [apply fastq_reads_length |].
  split.
  - fold (clean adapters). unfold clean.
    rewrite (Interleave_length _ _ _ (Interleave_filter (hit adapters) _)).
    apply fastq_reads_length.
  - rewrite simple_filter_fallback_reads. cbv zeta.
    rewrite Hfmt. unfold fallback_reads. fold lines. fold adapters.
    now rewrite fastq_reads_length.
Qed.

(** ** The fallback classifier *)

(** C4 (amended). In fallback mode a read is discarded if and only if
    the upper-cased forward sequence of some record of the panel with a
    non-empty sequence is a literal substring of the upper-cased read
    sequence; records with an empty sequence are not adapters, reverse
    complements are not searched, and the scoring parameters only appear
    in the log. *)
Theorem fallback_forward_substring (path_suffix : string -> string)
    (adapter_content reads_content reads_filename : string)
    (params : Params) :
  exists log,
    simple_filter_fallback path_suffix adapter_content reads_content
      reads_filename params
    = Some (lines_content
              (block_lines
                 (filter (clean (fallback_adapters adapter_content))
                    (fallback_reads
                       (file_format_from_name path_suffix reads_filename)
                       reads_content))),
            lines_content
              (block_lines
                 (filter (hit (fallback_adapters adapter_content))
                    (fallback_reads
                       (file_format_from_name path_suffix reads_filename)
                       reads_content))),
            log)
    /\ (forall r : Read,
          hit (fallback_adapters adapter_content) r = true
          <-> exists s, In s (panel_records adapter_content)
                        /\ s <> ""
                        /\ is_substring (upper s) (fst r))
    /\ (forall r : Read,
          clean (fallback_adapters adapter_content) r
          = negb (hit (fallback_adapters adapter_content) r))
    /\ (forall params' : Params,
          simple_filter_fallback path_suffix adapter_content reads_content
            reads_filename params'
          = Some (lines_content
                    (block_lines
                       (filter (clean (fallback_adapters adapter_content))
                          (fallback_reads
                             (file_format_from_name path_suffix reads_filename)
                             reads_content))),
                  lines_content
                    (block_lines
                       (filter (hit (fallback_adapters adapter_content))
                          (fallback_reads
                             (file_format_from_name path_suffix reads_filename)
                             reads_content))),
                  mkRunLog (log_tool log) params' (log_input_file log)
                    (log_format log) (log_total_reads log)
                    (log_adapters_loaded log) (log_reads_kept log)
                    (log_reads_discarded log))).
Proof.
  rewrite simple_filter_fallback_reads. cbv zeta.
  eexists. split; [reflexivity |]. split; [| split].
  - intros r. unfold hit. rewrite substring_hit_spec.
    rewrite fallback_adapters_forward. split.
    + intros (a & Hin & Hsub). apply in_map_iff in Hin.
      destruct Hin as (s & <- & Hs). apply filter_In in Hs.
      destruct Hs as [Hs Ht]. exists s. repeat split; auto.
      now apply truthy_true.
    + intros (s & Hin & Hne & Hsub). exists (upper s). split; [| exact Hsub].
      apply in_map, filter_In. split; [exact Hin | now apply truthy_true].
  - reflexivity.
  - intros params'. rewrite simple_filter_fallback_reads. reflexivity.
Qed.

(** C4 as stated fails: the loaded panel of [>A1 / AAAC] holds the
    reverse complement GTTT, which occurs in the read GGTTTG, and the
    fallback keeps that read. *)
Lemma fallback_misses_reverse_complement :
  (exists a, In a (load_adapters (">A1" ++ String LF "AAAC"))
             /\ is_substring a (upper "GGTTTG"))
  /\ substring_hit (fallback_adapters (">A1" ++ String LF "AAAC"))
       (upper "GGTTTG") = false
  /\ Reference.run false (">A1" ++ String LF "AAAC")
       (">r1" ++ String LF "GGTTTG") "reads.fasta" (mkParams 10 2 (-1) 5 1)
     = Some (">r1" ++ String LF ("GGTTTG" ++ String LF ""), "",
             mkRunLog SimpleSubstring (mkParams 10 2 (-1) 5 1) "reads.fasta"
               FASTA 1 1 1 0).
Proof.
  split; [| split; reflexivity].
  exists "GTTT". split.
  - right. left. reflexivity.
  - exists "G", "G". reflexivity.
Qed.

(** ** The example of section 8 *)

(** C3. With the reference aligner and parser, the panel [>A1 / ACGTACGT]
    and the FASTA reads r1 = ACGTACGTTTTT and r2 = GGGGGGGGGG, under
    match=2, mismatch=-1, gap_open=5, gap_extend=1, min_score=10: r1
    scores 16 against the adapter and is discarded, r2 scores 2 and is
    kept, and the log shows total=2, kept=1, discarded=1. *)
Theorem scenario_r1_discarded_r2_kept (path_suffix : string -> string)
    (SeqIO_write : list SeqRecord -> Format -> string)
    (reads_filename : string) :
  file_format_from_name path_suffix reads_filename = FASTA ->
  load_adapters Scenario.adapter_panel = ["ACGTACGT"; "ACGTACGT"]
  /\ Reference.sw_scan_16 (upper (rec_seq Scenario.r1)) "ACGTACGT" 5 1
       (Reference.matrix_create "ACGT" 2 (-1)) = 16%Z
  /\ Reference.sw_scan_16 (upper (rec_seq Scenario.r2)) "ACGTACGT" 5 1
       (Reference.matrix_create "ACGT" 2 (-1)) = 2%Z
  /\ filter_reads_web path_suffix Reference.matrix_create
       Reference.sw_scan_16 Reference.SeqIO_parse SeqIO_write true
       Scenario.adapter_panel Scenario.reads reads_filename Scenario.params
     = Some (SeqIO_write [Scenario.r2] FASTA,
             SeqIO_write [Scenario.r1] FASTA,
             mkRunLog ParasailSmithWaterman Scenario.params reads_filename
               FASTA 2 1 1 1).
Proof.
  intros Hfmt.
  split; [reflexivity | split; [reflexivity | split; [reflexivity |]]].
  assert (Hparse : Reference.SeqIO_parse Scenario.reads
                     (file_format_from_name path_suffix reads_filename)
                   = Some [Scenario.r1; Scenario.r2])
    by (rewrite Hfmt; reflexivity).
  rewrite (filter_reads_web_parsed _ _ _ _ _ _ _ _ _ _ _ Hparse).
  cbv zeta. rewrite Hfmt. reflexivity.
Qed.

Lemma scenario_witness :
  file_format_from_name Reference.path_suffix "reads.fasta" = FASTA
  /\ Reference.run true Scenario.adapter_panel Scenario.reads "reads.fasta"
       Scenario.params
     = Some (">r2" ++ String LF ("GGGGGGGGGG" ++ String LF ""),
             ">r1" ++ String LF ("ACGTACGTTTTT" ++ String LF ""),
             mkRunLog ParasailSmithWaterman Scenario.params "reads.fasta"
               FASTA 2 1 1 1).
Proof.
  split; [reflexivity |].
  apply (scenario_r1_discarded_r2_kept Reference.path_suffix
           Reference.SeqIO_write "reads.fasta" eq_refl).
Defined.

(** ** The properties at concrete inputs *)


Lemma partition_witness :
  exists kept discarded log,
    Reference.run true Scenario.adapter_panel Scenario.reads "reads.fasta"
      Scenario.params
    = Some (Reference.SeqIO_write kept FASTA,
            Reference.SeqIO_write discarded FASTA, log)
    /\ Interleave kept discarded [Scenario.r1; Scenario.r2]
    /\ log_reads_kept log = List.length kept
    /\ log_reads_discarded log = List.length discarded
    /\ log_total_reads log = 2%nat
    /\ (log_reads_kept log + log_reads_discarded log = log_total_reads log)%nat.
Proof.
  exact (proj1 (partition_order_and_counts Reference.path_suffix
                  Reference.Matrix Reference.matrix_create
                  Reference.sw_scan_16 Reference.SeqIO_parse
                  Reference.SeqIO_write Scenario.adapter_panel Scenario.reads
                  "reads.fasta" Scenario.params)
           [Scenario.r1; Scenario.r2] eq_refl).
Defined.

Lemma threshold_monotone_witness :
  (10 <= 17)%Z
  /\ discarded_of (Reference.run true Scenario.adapter_panel Scenario.reads
                     "reads.fasta" (with_min_score Scenario.params 10))
     = Some 1%nat
  /\ discarded_of (Reference.run true Scenario.adapter_panel Scenario.reads
                     "reads.fasta" (with_min_score Scenario.params 17))
     = Some 0%nat
  /\ exists d1 d2,
       discarded_of (Reference.run true Scenario.adapter_panel Scenario.reads
                       "reads.fasta" (with_min_score Scenario.params 10))
       = Some d1
       /\ discarded_of (Reference.run true Scenario.adapter_panel
                          Scenario.reads "reads.fasta"
                          (with_min_score Scenario.params 17))
          = Some d2
       /\ (d2 <= d1)%nat.
Proof.
  assert (H : (10 <= 17)%Z) by (vm_compute; discriminate).
  split; [exact H | split; [reflexivity | split; [reflexivity |]]].
  exact (threshold_monotone Reference.path_suffix Reference.Matrix
           Reference.matrix_create Reference.sw_scan_16 Reference.SeqIO_parse
           Reference.SeqIO_write true Scenario.adapter_panel Scenario.reads
           "reads.fasta" Scenario.params 10 17 [Scenario.r1; Scenario.r2]
           H eq_refl).
Defined.

Lemma empty_panel_witness :
  load_adapters "" = []
  /\ Reference.run true "" Scenario.reads "reads.fasta" Scenario.params
     = Some (Reference.SeqIO_write [Scenario.r1; Scenario.r2] FASTA, "",
             mkRunLog ParasailSmithWaterman Scenario.params "reads.fasta"
               FASTA 2 0 2 0).
Proof.
  split; [reflexivity |].
  exact (proj1 (proj2 (empty_panel_all_clean Reference.path_suffix
                         Reference.Matrix Reference.matrix_create
                         Reference.sw_scan_16 Reference.SeqIO_parse
                         Reference.SeqIO_write "" Scenario.reads
                         "reads.fasta" Scenario.params))
           eq_refl [Scenario.r1; Scenario.r2] eq_refl).
Defined.

Lemma truncated_fastq_witness :
  file_format_from_name Reference.path_suffix "reads.fq" = FASTQ
  /\ List.length (split_lines (strip TruncatedFastq.reads)) = 6%nat
  /\ Reference.run false Scenario.adapter_panel TruncatedFastq.reads
       "reads.fq" Scenario.params
     = Some ("",
             "@r1" ++ String LF ("TTACGTACGTAA" ++ String LF ("+" ++ String LF
               ("IIIIIIIIIIII" ++ String LF ""))),
             mkRunLog SimpleSubstring Scenario.params "reads.fq" FASTQ
               1 1 0 1)
  /\ exists complete dropped st,
       split_lines (strip TruncatedFastq.reads) = (complete ++ dropped)%list
       /\ List.length complete = 4%nat
       /\ (0 < List.length dropped < 4)%nat
       /\ fastq_loop (fallback_adapters Scenario.adapter_panel)
            (split_lines (strip TruncatedFastq.reads)) = Some st
       /\ fastq_loop (fallback_adapters Scenario.adapter_panel) complete
          = Some st
       /\ processed st = 1%nat
       /\ (kept_count st + discarded_count st = 1)%nat
       /\ simple_filter_fallback Reference.path_suffix Scenario.adapter_panel
            TruncatedFastq.reads "reads.fq" Scenario.params
          = Some (lines_content (kept_lines st),
                  lines_content (discarded_lines st),
                  mkRunLog SimpleSubstring Scenario.params "reads.fq" FASTQ
                    1 (List.length (fallback_adapters Scenario.adapter_panel))
                    (kept_count st) (discarded_count st)).
Proof.
  split; [reflexivity | split; [reflexivity | split; [reflexivity |]]].
  refine (truncated_fastq_group_dropped Reference.path_suffix
            Scenario.adapter_panel TruncatedFastq.reads "reads.fq"
            Scenario.params eq_refl _).
  vm_compute. discriminate.
Defined.

(** * Further properties of the code *)

(** ** Format detection *)

Lemma lower_same_ignoring_case (s t : string) :
  same_ignoring_case s t -> lower s = lower t.
Proof.
  unfold same_ignoring_case. revert t.
  induction s as [|a s IH]; intros [|b t] H; simpl in *;
    inversion H; subst; [reflexivity |].
  f_equal; [assumption | now apply IH].
Qed.

Lemma same_ignoring_case_lower (s t : string) :
  lower s = lower t -> same_ignoring_case s t.
Proof.
  unfold same_ignoring_case. revert t.
  induction s as [|a s IH]; intros [|b t] H; simpl in *;
    try discriminate; [constructor |].
  injection H as Hc Hs. constructor; [exact Hc | now apply IH].
Qed.

Lemma lower_is_literal (s t : string) :
  lower t = t -> (String.eqb (lower s) t = true <-> same_ignoring_case s t).
Proof.
  intros Ht. rewrite String.eqb_eq. split.
  - intros H. apply same_ignoring_case_lower. now rewrite Ht.
  - intros H. rewrite <- Ht. now apply lower_same_ignoring_case.
Qed.

(** X1. The format is read off the suffix without regard to the case of
    its letters: it is FASTA exactly when the suffix is [.fa] or [.fasta]
    up to letter case, FASTQ for every other name (also one without a
    suffix), and two names whose suffixes differ in letter case only get
    the same format. *)
Theorem file_format_by_suffix (path_suffix : string -> string) (f : string) :
  (file_format_from_name path_suffix f = FASTA
   <-> same_ignoring_case (path_suffix f) ".fa"
       \/ same_ignoring_case (path_suffix f) ".fasta")
  /\ (file_format_from_name path_suffix f = FASTQ
      <-> ~ (same_ignoring_case (path_suffix f) ".fa"
             \/ same_ignoring_case (path_suffix f) ".fasta"))
  /\ (forall g,
        same_ignoring_case (path_suffix f) (path_suffix g) ->
        file_format_from_name path_suffix f
        = file_format_from_name path_suffix g).
Proof.
  assert (E : (String.eqb (lower (path_suffix f)) ".fa"
               || String.eqb (lower (path_suffix f)) ".fasta" = true)
              <-> same_ignoring_case (path_suffix f) ".fa"
                  \/ same_ignoring_case (path_suffix f) ".fasta").
  { rewrite orb_true_iff.
    now rewrite !lower_is_literal by reflexivity. }
  unfold file_format_from_name at 1 2. cbv zeta.
  destruct (String.eqb (lower (path_suffix f)) ".fa"
            || String.eqb (lower (path_suffix f)) ".fasta") eqn:Hb.
  - split; [| split].
    + split; [intros _; now apply E | reflexivity].
    + split; [discriminate |]. intros H. exfalso. apply H. now apply E.
    + intros g H. unfold file_format_from_name.
      rewrite <- (lower_same_ignoring_case _ _ H). now rewrite Hb.
  - assert (Hq : (if String.eqb (lower (path_suffix f)) ".fq"
                     || String.eqb (lower (path_suffix f)) ".fastq"
                  then FASTQ else FASTQ) = FASTQ)
      by (destruct (String.eqb (lower (path_suffix f)) ".fq"
                    || String.eqb (lower (path_suffix f)) ".fastq");
          reflexivity).
    rewrite Hq. split; [| split].
    + split; [discriminate |]. intros H. apply E in H. discriminate.
    + split; [| reflexivity]. intros _ H. apply E in H. discriminate.
    + intros g H. unfold file_format_from_name.
      rewrite <- (lower_same_ignoring_case _ _ H). now rewrite Hb, Hq.
Qed.

Lemma file_format_by_suffix_witness :
  same_ignoring_case (Reference.path_suffix "run1.FastA")
    (Reference.path_suffix "run2.fasta")
  /\ file_format_from_name Reference.path_suffix "run1.FastA" = FASTA
  /\ file_format_from_name Reference.path_suffix "README" = FASTQ
  /\ file_format_from_name Reference.path_suffix "run1.FastA"
     = file_format_from_name Reference.path_suffix "run2.fasta".
Proof.
  assert (H : same_ignoring_case (Reference.path_suffix "run1.FastA")
                (Reference.path_suffix "run2.fasta"))
    by (unfold same_ignoring_case; simpl; repeat constructor).
  split; [exact H | split; [reflexivity | split; [reflexivity |]]].
  exact (proj2 (proj2 (file_format_by_suffix Reference.path_suffix
                         "run1.FastA")) "run2.fasta" H).
Defined.

(** ** The loaded adapters *)

Lemma upper_char_idempotent (c : ascii) :
  upper_char (upper_char c) = upper_char c.
Proof. destruct c as [[] [] [] [] [] [] [] []]; reflexivity. Qed.

Lemma upper_idempotent (s : string) : upper (upper s) = upper s.
Proof.
  induction s as [|c s IH]; simpl; [reflexivity |].
  now rewrite upper_char_idempotent, IH.
Qed.

Lemma upper_truthy (s : string) : truthy (upper s) = truthy s.
Proof. destruct s; reflexivity. Qed.

Lemma complement_upper (c : ascii) :
  upper_char c = c -> upper_char (complement c) = complement c.
Proof.
  intros H. unfold complement.
  repeat match goal with
         | |- context [Ascii.eqb ?a ?b] => destruct (Ascii.eqb a b)
         end; try reflexivity; exact H.
Qed.

Lemma upper_of_list (l : list ascii) :
  Forall (fun c => upper_char c = c) l ->
  upper (string_of_list_ascii l) = string_of_list_ascii l.
Proof.
  induction 1 as [|c l Hc _ IH]; simpl; [reflexivity |].
  now rewrite Hc, IH.
Qed.

Lemma upper_chars (s : string) :
  Forall (fun c => upper_char c = c) (list_ascii_of_string (upper s)).
Proof.
  induction s as [|c s IH]; simpl; constructor;
    [apply upper_char_idempotent | exact IH].
Qed.

Lemma reverse_complement_upper (s : string) :
  upper (reverse_complement (upper s)) = reverse_complement (upper s).
Proof.
  unfold reverse_complement. apply upper_of_list.
  apply Forall_rev. apply Forall_map.
  eapply Forall_impl; [| apply upper_chars].
  intros c Hc. now apply complement_upper.
Qed.

Lemma reverse_complement_truthy (s : string) :
  truthy (reverse_complement s) = truthy s.
Proof.
  unfold reverse_complement. destruct s as [|c s]; [reflexivity |].
  simpl. destruct (rev (map complement (list_ascii_of_string s)));
    reflexivity.
Qed.

Lemma Forall_flat_map {A B} (P : B -> Prop) (f : A -> list B) (l : list A) :
  (forall x, In x l -> Forall P (f x)) -> Forall P (flat_map f l).
Proof.
  induction l as [|x l IH]; simpl; intros H; [constructor |].
  apply Forall_app. split; [apply H; now left |].
  apply IH. intros y Hy. apply H. now right.
Qed.

Lemma fallback_adapters_nonempty_upper (content : string) :
  Forall (fun a => a <> "" /\ upper a = a) (fallback_adapters content).
Proof.
  rewrite fallback_adapters_flat_map. apply Forall_flat_map. intros s _.
  unfold emit_forward. destruct (truthy s) eqn:Hs; [| constructor].
  repeat constructor.
  - apply truthy_true. now rewrite upper_truthy.
  - apply upper_idempotent.
Qed.

(** X2. No adapter that either loader returns is empty, and every one is
    upper-case: the guard [if current_seq:] keeps the empty string, which
    is a substring of every read, out of the search set. *)
Theorem loaded_adapters_nonempty_upper (content : string) :
  Forall (fun a => a <> "" /\ upper a = a) (load_adapters content)
  /\ Forall (fun a => a <> "" /\ upper a = a) (fallback_adapters content).
Proof.
  split; [| apply fallback_adapters_nonempty_upper].
  rewrite load_adapters_flat_map. apply Forall_flat_map. intros s _.
  unfold emit_pair, adapter_pair. destruct (truthy s) eqn:Hs; [| constructor].
  repeat constructor.
  - apply truthy_true. now rewrite upper_truthy.
  - apply upper_idempotent.
  - apply truthy_true.
    now rewrite reverse_complement_truthy, upper_truthy.
  - apply reverse_complement_upper.
Qed.

Lemma length_flat_map_emit_pair (recs : list string) :
  List.length (flat_map emit_pair recs)
  = (2 * List.length (flat_map emit_forward recs))%nat.
Proof.
  induction recs as [|s recs IH]; simpl; [reflexivity |].
  rewrite !length_app, IH. unfold emit_pair, emit_forward, adapter_pair.
  destruct (truthy s); simpl; lia.
Qed.

Lemma loaders_count (content : string) :
  (List.length (load_adapters content) / 2
   = List.length (fallback_adapters content))%nat.
Proof.
  rewrite load_adapters_flat_map, fallback_adapters_flat_map.
  rewrite length_flat_map_emit_pair, Nat.mul_comm.
  apply Nat.div_mul. discriminate.
Qed.

(** X3. Both modes report the same number under "Adapters loaded": half
    the length of [load_adapters] is the number of adapters the fallback
    parses, the number of non-empty records of the panel. *)
Theorem adapters_loaded_agree (path_suffix : string -> string)
    (Matrix : Type) (matrix_create : string -> Z -> Z -> Matrix)
    (sw_scan_16 : string -> string -> Z -> Z -> Matrix -> Z)
    (SeqIO_parse : string -> Format -> option (list SeqRecord))
    (SeqIO_write : list SeqRecord -> Format -> string)
    (adapter_content reads_content reads_filename : string)
    (params : Params) (reads : list SeqRecord) :
  SeqIO_parse reads_content (file_format_from_name path_suffix reads_filename)
  = Some reads ->
  exists out1 log1 out2 log2,
    filter_reads_web path_suffix matrix_create sw_scan_16 SeqIO_parse
      SeqIO_write true adapter_content reads_content reads_filename params
    = Some (out1, log1)
    /\ filter_reads_web path_suffix matrix_create sw_scan_16 SeqIO_parse
         SeqIO_write false adapter_content reads_content reads_filename
         params
       = Some (out2, log2)
    /\ log_adapters_loaded log1 = log_adapters_loaded log2
    /\ log_adapters_loaded log1
       = List.length (filter truthy (panel_records adapter_content)).
Proof.
  intros H.
  rewrite (filter_reads_web_parsed _ _ _ _ _ _ _ _ _ _ _ H).
  unfold filter_reads_web at 1. cbn [negb].
  rewrite simple_filter_fallback_reads. cbv zeta.
  do 4 eexists. split; [reflexivity | split; [reflexivity |]].
  cbn [log_adapters_loaded]. rewrite loaders_count. split; [reflexivity |].
  rewrite fallback_adapters_forward. apply length_map.
Qed.

Lemma adapters_loaded_agree_witness :
  exists out1 log1 out2 log2,
    Reference.run true Scenario.adapter_panel Scenario.reads "reads.fasta"
      Scenario.params = Some (out1, log1)
    /\ Reference.run false Scenario.adapter_panel Scenario.reads "reads.fasta"
         Scenario.params = Some (out2, log2)
    /\ log_adapters_loaded log1 = log_adapters_loaded log2
    /\ log_adapters_loaded log1
       = List.length (filter truthy (panel_records Scenario.adapter_panel)).
Proof.
  exact (adapters_loaded_agree Reference.path_suffix Reference.Matrix
           Reference.matrix_create Reference.sw_scan_16 Reference.SeqIO_parse
           Reference.SeqIO_write Scenario.adapter_panel Scenario.reads
           "reads.fasta" Scenario.params [Scenario.r1; Scenario.r2] eq_refl).
Defined.

(** ** Reads that cannot match *)

Lemma str_length_app (s t : string) :
  String.length (s ++ t) = (String.length s + String.length t)%nat.
Proof. induction s as [|c s IH]; simpl; [reflexivity | now rewrite IH]. Qed.

Lemma is_substring_length (a s : string) :
  is_substring a s -> (String.length a <= String.length s)%nat.
Proof.
  intros (pre & post & ->). rewrite !str_length_app. lia.
Qed.

Lemma substring_hit_short (adapters : list string) (seq : string) :
  (forall a, In a adapters -> (String.length seq < String.length a)%nat) ->
  substring_hit adapters seq = false.
Proof.
  intros H. destruct (substring_hit adapters seq) eqn:Hh; [| reflexivity].
  apply substring_hit_spec in Hh. destruct Hh as (a & Hin & Hsub).
  apply is_substring_length in Hsub. specialize (H a Hin). lia.
Qed.

(** X4. In fallback mode a read whose sequence is shorter than every
    adapter is kept; in particular a FASTQ read with a blank sequence
    line is never discarded, whatever the panel. *)
Theorem fallback_keeps_short_reads (path_suffix : string -> string)
    (adapter_content reads_content reads_filename : string)
    (params : Params) :
  exists kept discarded log,
    simple_filter_fallback path_suffix adapter_content reads_content
      reads_filename params
    = Some (lines_content (block_lines kept),
            lines_content (block_lines discarded), log)
    /\ (forall r,
          In r (fallback_reads
                  (file_format_from_name path_suffix reads_filename)
                  reads_content) ->
          (forall a, In a (fallback_adapters adapter_content) ->
                     (String.length (fst r) < String.length a)%nat) ->
          In r kept /\ ~ In r discarded)
    /\ (forall r,
          In r (fallback_reads
                  (file_format_from_name path_suffix reads_filename)
                  reads_content) ->
          fst r = "" -> In r kept /\ ~ In r discarded).
Proof.
  rewrite simple_filter_fallback_reads. cbv zeta.
  do 3 eexists. split; [reflexivity |].
  assert (Hshort : forall r,
             In r (fallback_reads
                     (file_format_from_name path_suffix reads_filename)
                     reads_content) ->
             (forall a, In a (fallback_adapters adapter_content) ->
                        (String.length (fst r) < String.length a)%nat) ->
             In r (filter (clean (fallback_adapters adapter_content))
                     (fallback_reads
                        (file_format_from_name path_suffix reads_filename)
                        reads_content))
             /\ ~ In r (filter (hit (fallback_adapters adapter_content))
                          (fallback_reads
                             (file_format_from_name path_suffix reads_filename)
                             reads_content))).
  { intros r Hin Hlen. pose proof (substring_hit_short _ _ Hlen) as Hh.
    split.
    - apply filter_In. split; [exact Hin |]. unfold clean, hit.
      now rewrite Hh.
    - intros Hf. apply filter_In in Hf. unfold hit in Hf.
      rewrite Hh in Hf. destruct Hf; discriminate. }
  split; [exact Hshort |].
  intros r Hin Hr. apply Hshort; [exact Hin |]. intros a Ha. rewrite Hr.
  pose proof (fallback_adapters_nonempty_upper adapter_content) as Hne.
  rewrite Forall_forall in Hne. destruct (Hne a Ha) as [Hn _].
  destruct a; [congruence | simpl; lia].
Qed.

Lemma fallback_keeps_short_reads_witness :
  exists kept discarded log,
    simple_filter_fallback Reference.path_suffix Scenario.adapter_panel
      ("@r1" ++ String LF (" " ++ String LF ("+" ++ String LF "!")))
      "reads.fq" Scenario.params
    = Some (lines_content (block_lines kept),
            lines_content (block_lines discarded), log)
    /\ In ("", ["@r1"; " "; "+"; "!"]) kept
    /\ ~ In ("", ["@r1"; " "; "+"; "!"]) discarded.
Proof.
  destruct (fallback_keeps_short_reads Reference.path_suffix
              Scenario.adapter_panel
              ("@r1" ++ String LF (" " ++ String LF ("+" ++ String LF "!")))
              "reads.fq" Scenario.params)
    as (kept & discarded & log & Hrun & _ & Hblank).
  exists kept, discarded, log. split; [exact Hrun |].
  apply (Hblank ("", ["@r1"; " "; "+"; "!"])).
  - left. reflexivity.
  - reflexivity.
Defined.

(** ** Order of the adapters *)

(** X5. Whether a read is contaminated depends on which adapters are in
    the set only, not on their order or on repetitions: the early exit of
    the scan changes how many alignments are computed, never the verdict.
    The same holds for the substring test of the fallback. *)
Theorem verdict_ignores_adapter_order (Matrix : Type)
    (sw_scan_16 : string -> string -> Z -> Z -> Matrix -> Z)
    (params : Params) (matrix : Matrix) (adapters adapters' : list string)
    (rec : SeqRecord) (seq : string) :
  (forall a, In a adapters <-> In a adapters') ->
  is_contaminated sw_scan_16 params matrix adapters rec
  = is_contaminated sw_scan_16 params matrix adapters' rec
  /\ substring_hit adapters seq = substring_hit adapters' seq.
Proof.
  intros H. split.
  - apply eq_true_iff_eq. unfold is_contaminated.
    rewrite !scan_adapters_true.
    split; intros (a & Hin & Ha); exists a; split; auto; now apply H.
  - apply eq_true_iff_eq. rewrite !substring_hit_spec.
    split; intros (a & Hin & Ha); exists a; split; auto; now apply H.
Qed.

Lemma verdict_ignores_adapter_order_witness :
  is_contaminated Reference.sw_scan_16 Scenario.params
    (Reference.matrix_create "ACGT" 2 (-1)) ["GGGG"; "ACGTACGT"] Scenario.r1
  = is_contaminated Reference.sw_scan_16 Scenario.params
      (Reference.matrix_create "ACGT" 2 (-1))
      ["ACGTACGT"; "GGGG"; "ACGTACGT"] Scenario.r1
  /\ substring_hit ["GGGG"; "ACGTACGT"] "TTACGTACGT"
     = substring_hit ["ACGTACGT"; "GGGG"; "ACGTACGT"] "TTACGTACGT".
Proof.
  apply (verdict_ignores_adapter_order Reference.Matrix Reference.sw_scan_16
           Scenario.params (Reference.matrix_create "ACGT" 2 (-1))
           ["GGGG"; "ACGTACGT"] ["ACGTACGT"; "GGGG"; "ACGTACGT"]
           Scenario.r1 "TTACGTACGT").
  intros a. simpl. tauto.
Defined.

(** ** Shape of the fallback's outputs *)

Lemma block_lines_length (k : nat) (reads : list Read) :
  Forall (fun r => List.length (snd r) = k) reads ->
  List.length (block_lines reads) = (k * List.length reads)%nat.
Proof.
  unfold block_lines. induction 1 as [|r reads Hr _ IH]; simpl; [lia |].
  rewrite length_app, Hr, IH. lia.
Qed.

Lemma Forall_filter {A} (P : A -> Prop) (f : A -> bool) (l : list A) :
  Forall P l -> Forall P (filter f l).
Proof.
  induction 1 as [|x l Hx _ IH]; simpl; [constructor |].
  destruct (f x); [now constructor | exact IH].
Qed.

Lemma fastq_reads_blocks (lines : list string) :
  Forall (fun r => List.length (snd r) = 4%nat) (fastq_reads lines).
Proof.
  induction lines as [| | | |l1 l2 l3 l4 rest IH] using list_ind4;
    try constructor; [reflexivity | exact IH].
Qed.

Lemma fasta_reads_blocks (lines : list string) :
  Forall (fun r => List.length (snd r) = 2%nat) (fasta_reads lines).
Proof.
  unfold fasta_reads. apply Forall_map, Forall_forall. reflexivity.
Qed.

Lemma fasta_final_reads (adapters lines : list string) :
  fasta_final adapters lines
  = route_all adapters (fasta_reads lines) initial_state.
Proof. unfold fasta_final. apply fasta_loop_reads. Qed.

(** Project the fields of a state built on [initial_state]. *)
Ltac state_fields :=
  cbn [kept_lines discarded_lines kept_count discarded_count processed
       initial_state app Nat.add].

(** X6. The fallback writes whole records only: after the FASTQ loop the
    kept and the discarded lines number four per counted read, and after
    the FASTA loop two per counted read (the header and the sequence
    joined on one line). *)
Theorem fallback_writes_whole_records (adapters lines : list string) :
  (exists st,
      fastq_loop adapters lines = Some st
      /\ List.length (kept_lines st) = (4 * kept_count st)%nat
      /\ List.length (discarded_lines st) = (4 * discarded_count st)%nat)
  /\ List.length (kept_lines (fasta_final adapters lines))
     = (2 * kept_count (fasta_final adapters lines))%nat
  /\ List.length (discarded_lines (fasta_final adapters lines))
     = (2 * discarded_count (fasta_final adapters lines))%nat.
Proof.
  split.
  - eexists. split; [apply fastq_loop_reads |].
    rewrite route_all_filter. state_fields.
    split; apply block_lines_length, Forall_filter, fastq_reads_blocks.
  - rewrite fasta_final_reads, route_all_filter. state_fields.
    split; apply block_lines_length, Forall_filter, fasta_reads_blocks.
Qed.

Lemma block_lines_partition (f : Read -> bool) (reads : list Read) :
  Permutation
    (block_lines (filter (fun r => negb (f r)) reads)
       ++ block_lines (filter f reads))
    (block_lines reads).
Proof.
  unfold block_lines. induction reads as [|r reads IH]; simpl.
  - constructor.
  - destruct (f r); simpl.
    + rewrite Permutation_app_swap_app. now apply Permutation_app_head.
    + rewrite <- app_assoc. now apply Permutation_app_head.
Qed.

Lemma fastq_reads_lines (lines : list string) :
  block_lines (fastq_reads lines)
  = firstn (4 * (List.length lines / 4)) lines.
Proof.
  unfold block_lines.
  induction lines as [| | | |l1 l2 l3 l4 rest IH] using list_ind4;
    try reflexivity.
  cbn [List.length]. rewrite div4_step.
  replace (4 * S (List.length rest / 4))%nat
    with (S (S (S (S (4 * (List.length rest / 4)))))) by lia.
  cbn [fastq_reads map List.concat firstn app snd]. now rewrite IH.
Qed.

(** X7. The FASTQ fallback neither loses, changes nor repeats a line of
    a complete record: the kept and the discarded lines together are a
    rearrangement of the lines of the complete groups of four, each line
    as it was read. *)
Theorem fastq_fallback_conserves_lines (adapters lines : list string) :
  exists st,
    fastq_loop adapters lines = Some st
    /\ Permutation (kept_lines st ++ discarded_lines st)
         (firstn (4 * (List.length lines / 4)) lines)
    /\ (List.length (kept_lines st) + List.length (discarded_lines st)
        = 4 * (List.length lines / 4))%nat.
Proof.
  eexists. split; [apply fastq_loop_reads |].
  rewrite route_all_filter. state_fields.
  assert (P : Permutation
                (block_lines (filter (clean adapters) (fastq_reads lines))
                   ++ block_lines (filter (hit adapters) (fastq_reads lines)))
                (firstn (4 * (List.length lines / 4)) lines)).
  { rewrite <- fastq_reads_lines. apply block_lines_partition. }
  split; [exact P |].
  apply Permutation_length in P. rewrite length_app in P. rewrite P.
  rewrite length_firstn.
  pose proof (Nat.div_mod_eq (List.length lines) 4). lia.
Qed.

Lemma lines_content_empty (ls : list string) :
  lines_content ls = "" <-> ls = [].
Proof.
  destruct ls as [|l ls]; simpl; [tauto |].
  split; [| discriminate]. intros H. exfalso.
  destruct (join_lines (l :: ls)); discriminate.
Qed.

Lemma block_lines_empty (k : nat) (reads : list Read) :
  Forall (fun r => List.length (snd r) = S k) reads ->
  (block_lines reads = [] <-> reads = []).
Proof.
  intros H. split; [| intros ->; reflexivity].
  destruct H as [|r reads Hr _]; [reflexivity |].
  unfold block_lines. simpl. destruct (snd r); discriminate.
Qed.

Lemma fallback_reads_blocks (fmt : Format) (reads_content : string) :
  exists k,
    Forall (fun r => List.length (snd r) = S k)
      (fallback_reads fmt reads_content).
Proof.
  unfold fallback_reads. destruct fmt.
  - exists 1%nat. apply fasta_reads_blocks.
  - exists 3%nat. apply fastq_reads_blocks.
Qed.

(** X8. In fallback mode an output text is empty exactly when its count
    is zero: no kept reads give an empty kept file, and any kept read
    gives a non-empty one; likewise for the discarded file. *)
Theorem fallback_empty_output_iff_zero (path_suffix : string -> string)
    (adapter_content reads_content reads_filename : string)
    (params : Params) :
  exists kept_content discarded_content log,
    simple_filter_fallback path_suffix adapter_content reads_content
      reads_filename params
    = Some (kept_content, discarded_content, log)
    /\ (kept_content = "" <-> log_reads_kept log = 0%nat)
    /\ (discarded_content = "" <-> log_reads_discarded log = 0%nat).
Proof.
  rewrite simple_filter_fallback_reads. cbv zeta.
  do 3 eexists. split; [reflexivity |]. cbn [log_reads_kept log_reads_discarded].
  destruct (fallback_reads_blocks
              (file_format_from_name path_suffix reads_filename)
              reads_content) as [k Hk].
  split; rewrite lines_content_empty;
    rewrite (block_lines_empty k) by (apply Forall_filter, Hk);
    symmetry; apply length_zero_iff_nil.
Qed.

(** ** Splitting and joining *)

Lemma split_on_nonempty (sep : ascii) (s : string) : split_on sep s <> [].
Proof.
  induction s as [|c s IH]; simpl; [discriminate |].
  destruct (Ascii.eqb c sep); [discriminate |].
  destruct (split_on sep s); discriminate.
Qed.

Lemma split_lines_split_on (s : string) : split_lines s = split_on LF s.
Proof.
  induction s as [|c s IH]; simpl; [reflexivity | now rewrite IH].
Qed.

Lemma split_on_app (sep : ascii) (p s : string) :
  split_on sep (p ++ String sep s)
  = (split_on sep p ++ split_on sep s)%list.
Proof.
  induction p as [|c p IH]; simpl.
  - now rewrite Ascii.eqb_refl.
  - rewrite IH. destruct (Ascii.eqb c sep); [reflexivity |].
    pose proof (split_on_nonempty sep p) as Hne.
    destruct (split_on sep p); [congruence | reflexivity].
Qed.

Lemma split_on_free (sep : ascii) (s : string) :
  free_of sep s -> split_on sep s = [s].
Proof.
  unfold free_of. induction s as [|c s IH]; simpl; intros H;
    [reflexivity |].
  inversion H as [|? ? Hc Hs]; subst.
  apply Ascii.eqb_neq in Hc. now rewrite Hc, (IH Hs).
Qed.

Lemma join_lines_cons (l : string) (ls : list string) :
  ls <> [] -> join_lines (l :: ls) = l ++ String LF (join_lines ls).
Proof. destruct ls; [congruence | reflexivity]. Qed.

Lemma join_lines_app (a b : list string) :
  a <> [] -> b <> [] ->
  join_lines (a ++ b) = join_lines a ++ String LF (join_lines b).
Proof.
  intros Ha Hb. induction a as [|l a IH]; [congruence |].
  destruct a as [|l' a].
  - simpl app. now rewrite join_lines_cons.
  - change ((l :: l' :: a) ++ b)%list with (l :: ((l' :: a) ++ b))%list.
    rewrite join_lines_cons by discriminate.
    rewrite IH by discriminate.
    rewrite (join_lines_cons l (l' :: a)) by discriminate.
    now rewrite str_app_assoc.
Qed.

(** Splitting a joined list of separator-free pieces gives the pieces. *)
Lemma split_on_join_lines (pieces : list string) :
  pieces <> [] -> Forall (free_of LF) pieces ->
  split_on LF (join_lines pieces) = pieces.
Proof.
  intros Hne H. induction H as [|l ls Hl Hls IH]; [congruence |].
  destruct ls as [|l' ls].
  - simpl. now apply split_on_free.
  - rewrite join_lines_cons by discriminate.
    rewrite split_on_app, (split_on_free _ _ Hl), IH by discriminate.
    reflexivity.
Qed.

Lemma list_ascii_app (s t : string) :
  list_ascii_of_string (s ++ t)
  = (list_ascii_of_string s ++ list_ascii_of_string t)%list.
Proof. induction s as [|c s IH]; simpl; [reflexivity | now rewrite IH]. Qed.

Lemma free_of_app (sep : ascii) (s t : string) :
  free_of sep s -> free_of sep t -> free_of sep (s ++ t).
Proof.
  unfold free_of. intros Hs Ht. rewrite list_ascii_app.
  apply Forall_app. now split.
Qed.

(** ** Reading the statistics back from a log *)

Lemma second_field_defined (k1 k2 line : string) :
  is_substring (k1 ++ String ":" k2) line ->
  exists v, second_field line = Some v.
Proof.
  intros (pre & post & ->). unfold second_field.
  rewrite str_app_assoc. cbn [append]. rewrite <- str_app_assoc.
  rewrite split_on_app.
  pose proof (split_on_nonempty ":" (pre ++ k1)) as H1.
  pose proof (split_on_nonempty ":" (k2 ++ post)) as H2.
  destruct (split_on ":" (pre ++ k1)) as [|a [|a' l]]; [congruence | |];
    destruct (split_on ":" (k2 ++ post)) as [|b l']; try congruence;
    cbn; eauto.
Qed.

(** A matching line always has a second field: the loop body never
    raises. *)
Lemma stats_line_defined (stats : Stats) (line : string) :
  exists stats', stats_line stats line = Some stats'.
Proof.
  unfold stats_line.
  destruct (contains line "Total reads:") eqn:Ht.
  - apply contains_spec in Ht.
    destruct (second_field_defined "Total reads" "" line Ht) as [v ->].
    cbn. eauto.
  - destruct (contains line "Reads kept:") eqn:Hk.
    + apply contains_spec in Hk.
      destruct (second_field_defined "Reads kept" "" line Hk) as [v ->].
      cbn. eauto.
    + destruct (contains line "Reads discarded:") eqn:Hd; [| eauto].
      apply contains_spec in Hd.
      destruct (second_field_defined "Reads discarded" "" line Hd) as [v ->].
      cbn. eauto.
Qed.

Lemma stats_line_keys (stats stats' : Stats) (line : string) :
  stats_line stats line = Some stats' ->
  (stat_total stats' = None
   <-> stat_total stats = None /\ sets_total line = false)
  /\ (stat_kept stats' = None
      <-> stat_kept stats = None /\ sets_kept line = false)
  /\ (stat_discarded stats' = None
      <-> stat_discarded stats = None /\ sets_discarded line = false).
Proof.
  unfold stats_line, sets_total, sets_kept, sets_discarded.
  destruct (contains line "Total reads:");
    [| destruct (contains line "Reads kept:");
       [| destruct (contains line "Reads discarded:")]];
    try (destruct (second_field line) as [v|]; [| discriminate]);
    cbn [bind]; intros H; injection H as H; subst stats'; cbn;
    intuition (try congruence; try discriminate).
Qed.

Lemma stats_loop_keys (log_lines : list string) :
  forall stats,
  exists stats',
    stats_loop log_lines stats = Some stats'
    /\ (stat_total stats' = None
        <-> stat_total stats = None
            /\ Forall (fun l => sets_total l = false) log_lines)
    /\ (stat_kept stats' = None
        <-> stat_kept stats = None
            /\ Forall (fun l => sets_kept l = false) log_lines)
    /\ (stat_discarded stats' = None
        <-> stat_discarded stats = None
            /\ Forall (fun l => sets_discarded l = false) log_lines).
Proof.
  induction log_lines as [|line rest IH]; intros stats.
  - exists stats. split; [reflexivity |].
    repeat split; try tauto; constructor.
  - destruct (stats_line_defined stats line) as [st1 H1].
    destruct (IH st1) as (st2 & H2 & Ht & Hk & Hd).
    exists st2. cbn [stats_loop]. rewrite H1. cbn [bind].
    split; [exact H2 |].
    destruct (stats_line_keys _ _ _ H1) as (Ht1 & Hk1 & Hd1).
    rewrite Ht, Hk, Hd, Ht1, Hk1, Hd1, !Forall_cons_iff. tauto.
Qed.

(** X9. Reading the statistics off a log never raises, whatever the text:
    a line that holds one of the three labels holds a colon, so its second
    field exists.  A statistic stays unset (and is shown as N/A) exactly
    when no line sets it, a line counting for the first label it holds
    in the order total, kept, discarded. *)
Theorem parse_stats_total (log_text : string) :
  exists stats,
    parse_stats log_text = Some stats
    /\ (stat_total stats = None
        <-> Forall (fun l => sets_total l = false) (split_on LF log_text))
    /\ (stat_kept stats = None
        <-> Forall (fun l => sets_kept l = false) (split_on LF log_text))
    /\ (stat_discarded stats = None
        <-> Forall (fun l => sets_discarded l = false)
              (split_on LF log_text)).
Proof.
  unfold parse_stats.
  destruct (stats_loop_keys (split_on LF log_text) (mkStats None None None))
    as (stats & H & Ht & Hk & Hd).
  exists stats. split; [exact H |]. cbn in Ht, Hk, Hd.
  rewrite Ht, Hk, Hd. tauto.
Qed.

(** *** The numbers and the timestamp of a log *)

Lemma number_char_facts (c : ascii) :
  number_char c = true ->
  c <> "o"%char /\ c <> "e"%char /\ c <> ":"%char /\ c <> LF
  /\ is_space c = false.
Proof.
  destruct c as [[] [] [] [] [] [] [] []]; intros H;
    try discriminate H; repeat split; try discriminate; reflexivity.
Qed.

Lemma iso_char_facts (c : ascii) :
  iso_char c = true -> c <> "o"%char /\ c <> "e"%char /\ c <> LF.
Proof.
  destruct c as [[] [] [] [] [] [] [] []]; intros H;
    try discriminate H; repeat split; discriminate.
Qed.

Lemma number_text_free (s : string) :
  number_text s ->
  free_of "o" s /\ free_of "e" s /\ free_of ":" s /\ free_of LF s
  /\ Forall (fun c => is_space c = false) (list_ascii_of_string s).
Proof.
  intros [H _]. unfold free_of.
  repeat split; (eapply Forall_impl; [| exact H]); intros c Hc;
    apply number_char_facts in Hc; tauto.
Qed.

Lemma iso_text_free (s : string) :
  iso_text s -> free_of "o" s /\ free_of "e" s /\ free_of LF s.
Proof.
  unfold iso_text, free_of. intros H.
  repeat split; (eapply Forall_impl; [| exact H]); intros c Hc;
    apply iso_char_facts in Hc; tauto.
Qed.

Lemma string_of_uint_digits (d : Decimal.uint) :
  Forall (fun c => is_digit c = true)
    (list_ascii_of_string (NilEmpty.string_of_uint d)).
Proof. induction d; simpl; constructor; auto. Qed.

Lemma to_uint_not_nil (n : nat) : Nat.to_uint n <> Decimal.Nil.
Proof.
  rewrite <- (DecimalNat.Unsigned.of_to n) at 1.
  rewrite DecimalNat.Unsigned.to_of. unfold Decimal.unorm.
  destruct (Decimal.nzhead (Nat.to_uint n)); discriminate.
Qed.

Lemma decimal_number (n : nat) : number_text (decimal n).
Proof.
  unfold number_text, decimal. split.
  - eapply Forall_impl; [| apply string_of_uint_digits].
    intros c Hc. unfold number_char. now rewrite Hc.
  - pose proof (to_uint_not_nil n) as H.
    destruct (Nat.to_uint n); [congruence | discriminate ..].
Qed.

Lemma group3_number (digits : list ascii) :
  Forall (fun c => number_char c = true) digits ->
  forall k, Forall (fun c => number_char c = true) (group3 digits k).
Proof.
  induction 1 as [|d rest Hd _ IH]; intros k; simpl; [constructor |].
  destruct (k =? 3)%nat; repeat constructor; auto.
Qed.

Lemma group3_not_nil (digits : list ascii) (k : nat) :
  digits <> [] -> group3 digits k <> [].
Proof.
  destruct digits; [congruence |]. intros _. simpl.
  destruct (k =? 3)%nat; discriminate.
Qed.

Lemma thousands_number (n : nat) : number_text (thousands n).
Proof.
  destruct (decimal_number n) as [Hd Hne].
  unfold number_text, thousands. split.
  - rewrite list_ascii_of_string_of_list_ascii.
    apply Forall_rev, group3_number, Forall_rev, Hd.
  - assert (H : rev (group3 (rev (list_ascii_of_string (decimal n))) 0) <> []).
    { intros H. apply (f_equal (@rev ascii)) in H.
      rewrite rev_involutive in H. simpl in H.
      apply group3_not_nil in H; [exact H |].
      intros H'. apply (f_equal (@rev ascii)) in H'.
      rewrite rev_involutive in H'. simpl in H'.
      destruct (decimal n); [congruence | discriminate]. }
    destruct (rev (group3 (rev (list_ascii_of_string (decimal n))) 0));
      [congruence | discriminate].
Qed.

Lemma rstrip_no_space (s : string) :
  Forall (fun c => is_space c = false) (list_ascii_of_string s) ->
  rstrip s = s.
Proof.
  induction s as [|c s IH]; simpl; intros H; [reflexivity |].
  inversion H as [|? ? Hc Hs]; subst. rewrite (IH Hs), Hc.
  destruct s; reflexivity.
Qed.

Lemma strip_blank_number (s : string) :
  number_text s -> strip (String " " s) = s.
Proof.
  intros H. destruct (number_text_free s H) as (_ & _ & _ & _ & Hsp).
  destruct H as [_ Hne]. unfold strip. cbn [lstrip].
  change (is_space " ") with true. cbn iota.
  destruct s as [|c s]; [congruence |].
  inversion Hsp as [|? ? Hc Hs]; subst. cbn [lstrip]. rewrite Hc.
  now apply rstrip_no_space.
Qed.

Lemma second_field_label (label value : string) :
  free_of ":" label -> number_text value ->
  second_field (label ++ String ":" (String " " value)) = Some value.
Proof.
  intros Hl Hv. unfold second_field.
  rewrite split_on_app, (split_on_free _ _ Hl).
  rewrite (split_on_free ":" (String " " value)).
  - cbn [app nth_error bind]. now rewrite strip_blank_number.
  - destruct (number_text_free value Hv) as (_ & _ & Hc & _).
    constructor; [discriminate | exact Hc].
Qed.

Lemma contains_absent2 (s : string) (k0 k1 : ascii) (krest : string) :
  free_of k1 s -> contains s (String k0 (String k1 krest)) = false.
Proof.
  unfold free_of. induction s as [|c s IH]; intros H.
  - reflexivity.
  - inversion H as [|? ? Hc Hs]; subst.
    cbn [contains]. rewrite (IH Hs), orb_false_r.
    cbn [prefix]. destruct (ascii_dec k0 c); [| reflexivity].
    destruct s as [|c' s]; [reflexivity |].
    inversion Hs; subst. cbn [prefix].
    destruct (ascii_dec k1 c'); [congruence | reflexivity].
Qed.

(** *** The lines of the log's tail, one by one *)

Lemma stats_line_total (stats : Stats) (value : string) :
  number_text value ->
  stats_line stats ("Total reads: " ++ value)
  = Some (mkStats (Some value) (stat_kept stats) (stat_discarded stats)).
Proof.
  intros Hv. unfold stats_line.
  assert (Hc : contains ("Total reads: " ++ value) "Total reads:" = true)
    by reflexivity.
  rewrite Hc.
  change ("Total reads: " ++ value)
    with ("Total reads" ++ String ":" (String " " value)).
  rewrite second_field_label;
    [reflexivity | repeat constructor; discriminate | exact Hv].
Qed.

Lemma stats_line_kept (stats : Stats) (value : string) :
  number_text value ->
  stats_line stats ("Reads kept: " ++ value)
  = Some (mkStats (stat_total stats) (Some value) (stat_discarded stats)).
Proof.
  intros Hv. destruct (number_text_free value Hv) as (Ho & _).
  unfold stats_line.
  assert (Ht : contains ("Reads kept: " ++ value) "Total reads:" = false)
    by (cbn; now apply contains_absent2).
  assert (Hk : contains ("Reads kept: " ++ value) "Reads kept:" = true)
    by reflexivity.
  rewrite Ht, Hk.
  change ("Reads kept: " ++ value)
    with ("Reads kept" ++ String ":" (String " " value)).
  rewrite second_field_label;
    [reflexivity | repeat constructor; discriminate | exact Hv].
Qed.

Lemma stats_line_discarded (stats : Stats) (value : string) :
  number_text value ->
  stats_line stats ("Reads discarded: " ++ value)
  = Some (mkStats (stat_total stats) (stat_kept stats) (Some value)).
Proof.
  intros Hv. destruct (number_text_free value Hv) as (Ho & He & _).
  unfold stats_line.
  assert (Ht : contains ("Reads discarded: " ++ value) "Total reads:" = false)
    by (cbn; now apply contains_absent2).
  assert (Hk : contains ("Reads discarded: " ++ value) "Reads kept:" = false)
    by (cbn; now apply contains_absent2).
  assert (Hd : contains ("Reads discarded: " ++ value) "Reads discarded:"
               = true) by reflexivity.
  rewrite Ht, Hk, Hd.
  change ("Reads discarded: " ++ value)
    with ("Reads discarded" ++ String ":" (String " " value)).
  rewrite second_field_label;
    [reflexivity | repeat constructor; discriminate | exact Hv].
Qed.

Lemma stats_line_adapters (stats : Stats) (value : string) :
  number_text value ->
  stats_line stats ("Adapters loaded: " ++ value) = Some stats.
Proof.
  intros Hv. destruct (number_text_free value Hv) as (Ho & He & _).
  unfold stats_line.
  assert (Ht : contains ("Adapters loaded: " ++ value) "Total reads:" = false)
    by (cbn; now apply contains_absent2).
  assert (Hk : contains ("Adapters loaded: " ++ value) "Reads kept:" = false)
    by (cbn; now apply contains_absent2).
  assert (Hd : contains ("Adapters loaded: " ++ value) "Reads discarded:"
               = false) by (cbn; now apply contains_absent2).
  now rewrite Ht, Hk, Hd.
Qed.

Lemma stats_line_completed (stats : Stats) (completed : string) :
  iso_text completed ->
  stats_line stats ("Completed: " ++ completed) = Some stats.
Proof.
  intros Hv. destruct (iso_text_free completed Hv) as (Ho & He & _).
  unfold stats_line.
  assert (Ht : contains ("Completed: " ++ completed) "Total reads:" = false)
    by (cbn; now apply contains_absent2).
  assert (Hk : contains ("Completed: " ++ completed) "Reads kept:" = false)
    by (cbn; now apply contains_absent2).
  assert (Hd : contains ("Completed: " ++ completed) "Reads discarded:"
               = false) by (cbn; now apply contains_absent2).
  now rewrite Ht, Hk, Hd.
Qed.

Lemma stats_loop_app (l1 l2 : list string) :
  forall stats,
    stats_loop (l1 ++ l2) stats
    = (stats' <- stats_loop l1 stats ;; stats_loop l2 stats').
Proof.
  induction l1 as [|line l1 IH]; intros stats; [reflexivity |].
  cbn [app stats_loop]. destruct (stats_line stats line); cbn [bind];
    [apply IH | reflexivity].
Qed.

(** The tail of a log sets the three statistics, whatever they were. *)
Lemma stats_loop_tail (completed : string) (log : RunLog) (stats : Stats) :
  iso_text completed ->
  stats_loop (log_tail completed log) stats
  = Some (mkStats (Some (thousands (log_total_reads log)))
            (Some (thousands (log_reads_kept log)))
            (Some (thousands (log_reads_discarded log)))).
Proof.
  intros Hc. unfold log_tail. rewrite stats_loop_app.
  cbn [stats_loop].
  rewrite stats_line_total by apply thousands_number. cbn [bind].
  rewrite stats_line_adapters by apply decimal_number. cbn [bind].
  change (stats_line ?s "") with (Some s). cbn [bind].
  change (stats_line ?s "Results:") with (Some s). cbn [bind].
  rewrite stats_line_kept by apply thousands_number. cbn [bind].
  rewrite stats_line_discarded by apply thousands_number. cbn [bind].
  rewrite stats_line_completed by exact Hc. cbn [bind].
  destruct (log_tool log); reflexivity.
Qed.

(** A literal text holds no line feed. *)
Ltac literal_free :=
  unfold free_of; cbn [list_ascii_of_string];
  repeat apply Forall_cons; try apply Forall_nil; discriminate.

Lemma log_tail_lines (completed : string) (log : RunLog) :
  iso_text completed -> Forall (free_of LF) (log_tail completed log).
Proof.
  intros Hc. destruct (iso_text_free completed Hc) as (_ & _ & Hlf).
  assert (Hn : forall s, number_text s -> free_of LF s)
    by (intros s Hs; now destruct (number_text_free s Hs) as (_ & _ & _ & H & _)).
  assert (Hl : forall lit s, free_of LF lit -> number_text s ->
                             free_of LF (lit ++ s))
    by (intros lit s Hlit Hs; apply free_of_app; auto).
  unfold log_tail. apply Forall_app. split.
  - apply Forall_cons; [apply Hl; [literal_free | apply thousands_number] |].
    apply Forall_cons; [apply Hl; [literal_free | apply decimal_number] |].
    apply Forall_cons; [literal_free |].
    apply Forall_cons; [literal_free |].
    apply Forall_cons; [apply Hl; [literal_free | apply thousands_number] |].
    apply Forall_cons; [apply Hl; [literal_free | apply thousands_number] |].
    apply Forall_cons; [| apply Forall_nil].
    apply free_of_app; [literal_free | exact Hlf].
  - destruct (log_tool log).
    + apply Forall_cons; [literal_free | apply Forall_nil].
    + apply Forall_cons; [literal_free |].
      apply Forall_cons; [literal_free |].
      apply Forall_cons; [literal_free | apply Forall_nil].
Qed.

(** X10. The statistics that the page reads back from a log are the
    numbers of the run: for the log text of either mode, whatever the
    start time, the parameters and the name of the input file (which may
    itself hold one of the labels), and a completion time in ISO format,
    the loop yields the total, kept and discarded counts as the log
    prints them, with thousands separators. *)
Theorem stats_read_back (started completed : string) (log : RunLog) :
  iso_text completed ->
  parse_stats (log_content started completed log)
  = Some (mkStats (Some (thousands (log_total_reads log)))
            (Some (thousands (log_reads_kept log)))
            (Some (thousands (log_reads_discarded log)))).
Proof.
  intros Hc. unfold parse_stats, log_content.
  rewrite join_lines_app;
    [| discriminate | unfold log_tail; discriminate].
  rewrite split_on_app, stats_loop_app.
  destruct (stats_loop_keys
              (split_on LF (join_lines (log_head started log)))
              (mkStats None None None)) as (stats & -> & _).
  cbn [bind].
  rewrite split_on_join_lines;
    [| unfold log_tail; discriminate | now apply log_tail_lines].
  now apply stats_loop_tail.
Qed.

Lemma stats_read_back_witness :
  iso_text "2024-05-01T12:30:01.250000"
  /\ parse_stats
       (log_content "2024-05-01T12:30:00" "2024-05-01T12:30:01.250000"
          (mkRunLog SimpleSubstring Scenario.params "Reads kept: 7.fq"
             FASTQ 1200 3 1150 50))
     = Some (mkStats (Some "1,200") (Some "1,150") (Some "50")).
Proof.
  assert (H : iso_text "2024-05-01T12:30:01.250000")
    by (unfold iso_text; simpl; repeat constructor).
  split; [exact H |].
  exact (stats_read_back "2024-05-01T12:30:00" "2024-05-01T12:30:01.250000"
           (mkRunLog SimpleSubstring Scenario.params "Reads kept: 7.fq"
              FASTQ 1200 3 1150 50) H).
Defined.

(** ** The first pass of the FASTA fallback *)

Lemma fasta_groups_count (lines : list string) :
  List.length (snd (fasta_groups lines)) = fasta_total_reads lines.
Proof.
  unfold fasta_total_reads.
  induction lines as [|line rest IH]; simpl; [reflexivity |].
  destruct (fasta_groups rest) as [body recs]. unfold is_header.
  destruct (startswith (strip line) ">"); simpl in *; now rewrite IH.
Qed.

(** X11. In the FASTA fallback the reads that are processed, together
    with the headers that are followed by no sequence, are the header
    lines that the first pass counts; so the progress figure never
    exceeds its total, and the logged total is smaller than the first
    count exactly by the number of empty records. *)
Theorem fasta_fallback_first_pass (adapters lines : list string) :
  (processed (fasta_final adapters lines)
   + List.length (filter (fun hb => negb (truthy (snd hb)))
                    (snd (fasta_groups lines)))
   = fasta_total_reads lines)%nat
  /\ (processed (fasta_final adapters lines) <= fasta_total_reads lines)%nat
  /\ (kept_count (fasta_final adapters lines)
      + discarded_count (fasta_final adapters lines)
      = processed (fasta_final adapters lines))%nat.
Proof.
  rewrite fasta_final_reads, route_all_filter. state_fields.
  assert (E : (List.length (fasta_reads lines)
               + List.length (filter (fun hb => negb (truthy (snd hb)))
                                (snd (fasta_groups lines)))
               = fasta_total_reads lines)%nat).
  { rewrite <- fasta_groups_count. unfold fasta_reads. rewrite length_map.
    rewrite Nat.add_comm.
    apply (filter_negb_length (fun hb : string * string => truthy (snd hb))). }
  split; [exact E | split; [lia |]].
  apply (filter_negb_length (hit adapters)).
Qed.

(** ** Stripping *)

Lemma lstrip_starts_clean (s : string) : starts_clean (lstrip s).
Proof.
  induction s as [|c s IH]; simpl; [exact I |].
  destruct (is_space c) eqn:Hc; [exact IH | exact Hc].
Qed.

Lemma lstrip_clean (s : string) : starts_clean s -> lstrip s = s.
Proof. destruct s as [|c s]; simpl; [reflexivity | now intros ->]. Qed.

Lemma rstrip_starts_clean (s : string) :
  starts_clean s -> starts_clean (rstrip s).
Proof.
  destruct s as [|c s]; simpl; [exact id |]. intros Hc.
  destruct (rstrip s); [now rewrite Hc | exact Hc].
Qed.

Lemma rstrip_idempotent (s : string) : rstrip (rstrip s) = rstrip s.
Proof.
  induction s as [|c s IH]; simpl; [reflexivity |].
  destruct (rstrip s) as [|d r] eqn:Hr.
  - destruct (is_space c) eqn:Hc; simpl; [reflexivity | now rewrite Hc].
  - cbn [rstrip]. cbn [rstrip] in IH. now rewrite IH.
Qed.

Lemma strip_trimmed (s : string) : trimmed (strip s).
Proof.
  unfold trimmed, strip. split.
  - apply rstrip_starts_clean, lstrip_starts_clean.
  - apply rstrip_idempotent.
Qed.

Lemma trimmed_strip (s : string) : trimmed s -> strip s = s.
Proof.
  intros [Hs Hr]. unfold strip. now rewrite (lstrip_clean s Hs).
Qed.

Lemma rstrip_cons (c : ascii) (s : string) :
  rstrip s = s -> s <> "" -> rstrip (String c s) = String c s.
Proof.
  intros Hr Hne. cbn [rstrip]. rewrite Hr.
  destruct s; [congruence | reflexivity].
Qed.

Lemma rstrip_app (s t : string) :
  rstrip t = t -> t <> "" -> rstrip (s ++ t) = s ++ t.
Proof.
  intros Hr Hne. induction s as [|c s IH]; [exact Hr |].
  cbn [append]. apply rstrip_cons; [exact IH |].
  destruct s; [exact Hne | discriminate].
Qed.

Lemma rstrip_trailing_space (s : string) (c : ascii) :
  is_space c = true -> rstrip (s ++ String c "") = rstrip s.
Proof.
  intros Hc. induction s as [|d s IH]; simpl; [now rewrite Hc |].
  now rewrite IH.
Qed.

Lemma trimmed_app (s t : string) : trimmed s -> trimmed t -> trimmed (s ++ t).
Proof.
  intros [Hs Hrs] [Ht Hrt]. destruct t as [|d t].
  - rewrite str_app_nil_r. now split.
  - split.
    + destruct s; [exact Ht | exact Hs].
    + apply rstrip_app; [exact Hrt | discriminate].
Qed.

Lemma lstrip_chars (P : ascii -> Prop) (s : string) :
  Forall P (list_ascii_of_string s) ->
  Forall P (list_ascii_of_string (lstrip s)).
Proof.
  induction s as [|c s IH]; simpl; intros H; [constructor |].
  destruct (is_space c); [| exact H]. inversion H; subst. now apply IH.
Qed.

Lemma rstrip_chars (P : ascii -> Prop) (s : string) :
  Forall P (list_ascii_of_string s) ->
  Forall P (list_ascii_of_string (rstrip s)).
Proof.
  induction s as [|c s IH]; simpl; intros H; [constructor |].
  inversion H as [|? ? Hc Hs]; subst. specialize (IH Hs).
  destruct (rstrip s).
  - destruct (is_space c); repeat constructor. exact Hc.
  - now constructor.
Qed.

Lemma strip_free (sep : ascii) (s : string) :
  free_of sep s -> free_of sep (strip s).
Proof. unfold free_of, strip. intros H. now apply rstrip_chars, lstrip_chars. Qed.

Lemma split_on_free_lines (sep : ascii) (s : string) :
  Forall (free_of sep) (split_on sep s).
Proof.
  induction s as [|c s IH]; simpl.
  - repeat constructor.
  - destruct (Ascii.eqb_spec c sep) as [Hc|Hc].
    + constructor; [constructor | exact IH].
    + destruct (split_on sep s) as [|l ls].
      * repeat constructor. exact Hc.
      * inversion IH; subst. constructor; [| assumption].
        constructor; assumption.
Qed.

(** ** Reading a fallback output back *)

Lemma rstrip_join_lines (ls : list string) :
  ls <> [] -> Forall (fun l => rstrip l = l /\ l <> "") ls ->
  rstrip (join_lines ls) = join_lines ls /\ join_lines ls <> "".
Proof.
  intros Hne H. induction H as [|l ls [Hr Hl] Hls IH]; [congruence |].
  destruct ls as [|l' ls].
  - simpl. now split.
  - rewrite join_lines_cons by discriminate.
    destruct (IH ltac:(discriminate)) as [IHr IHne].
    split.
    + apply rstrip_app; [| discriminate]. now apply rstrip_cons.
    + destruct l; [congruence | discriminate].
Qed.

Lemma join_lines_starts_clean (l : string) (ls : list string) :
  starts_clean l -> l <> "" -> starts_clean (join_lines (l :: ls)).
Proof.
  intros Hs Hne. destruct l as [|c l]; [congruence |].
  destruct ls; [exact Hs |].
  rewrite join_lines_cons by discriminate. exact Hs.
Qed.

(** The lines of a non-empty output are read back as they were written. *)
Lemma reparse_lines (ls : list string) :
  ls <> [] -> Forall line_ok ls ->
  split_lines (strip (lines_content ls)) = ls.
Proof.
  intros Hne H.
  assert (Hr : Forall (fun l => rstrip l = l /\ l <> "") ls).
  { eapply Forall_impl; [| exact H]. intros l ((_ & Hr) & Hl & _). now split. }
  assert (Hf : Forall (free_of LF) ls).
  { eapply Forall_impl; [| exact H]. intros l (_ & _ & Hf). exact Hf. }
  destruct (rstrip_join_lines ls Hne Hr) as [Hj Hjne].
  assert (Hs : strip (lines_content ls) = join_lines ls).
  { destruct ls as [|l ls]; [congruence |]. cbn [lines_content].
    unfold strip. rewrite lstrip_clean.
    - rewrite rstrip_trailing_space by reflexivity. exact Hj.
    - inversion H as [|? ? ((Hsc & _) & Hl & _) _]; subst.
      pose proof (join_lines_starts_clean l ls Hsc Hl) as Hc.
      destruct (join_lines (l :: ls)); [congruence | exact Hc]. }
  rewrite Hs, split_lines_split_on. now apply split_on_join_lines.
Qed.

Lemma startswith_app (s t : string) :
  startswith s ">" = false -> startswith t ">" = false ->
  startswith (s ++ t) ">" = false.
Proof.
  unfold startswith. destruct s as [|c s]; [auto |]. cbn [prefix append].
  destruct (ascii_dec ">" c); [destruct s; discriminate | reflexivity].
Qed.

Lemma startswith_nonempty (s : string) : startswith s ">" = true -> s <> "".
Proof.
  unfold startswith. destruct s; [discriminate | intros _; discriminate].
Qed.

(** What [fasta_groups] holds on lines without line feeds. *)
Lemma fasta_groups_ok (lines : list string) :
  Forall (free_of LF) lines ->
  (trimmed (fst (fasta_groups lines))
   /\ free_of LF (fst (fasta_groups lines))
   /\ startswith (fst (fasta_groups lines)) ">" = false)
  /\ Forall (fun hb =>
               (trimmed (fst hb) /\ free_of LF (fst hb)
                /\ startswith (fst hb) ">" = true)
               /\ (trimmed (snd hb) /\ free_of LF (snd hb)
                   /\ startswith (snd hb) ">" = false))
       (snd (fasta_groups lines)).
Proof.
  induction 1 as [|line rest Hline _ IH]; cbn [fasta_groups].
  - repeat split; try constructor.
  - destruct (fasta_groups rest) as [body recs].
    destruct IH as [(Hb1 & Hb2 & Hb3) Hrecs]. cbn [fst snd] in *.
    unfold is_header. destruct (startswith (strip line) ">") eqn:Hh;
      cbn [fst snd].
    + split.
      * split; [split; [exact I | reflexivity] |].
        split; [constructor | reflexivity].
      * constructor; [| exact Hrecs]. cbn [fst snd].
        split; [| split; [exact Hb1 | split; [exact Hb2 | exact Hb3]]].
        split; [apply strip_trimmed |].
        split; [now apply strip_free | exact Hh].
    + split; [| exact Hrecs].
      split; [apply trimmed_app; [apply strip_trimmed | exact Hb1] |].
      split; [apply free_of_app; [now apply strip_free | exact Hb2] |].
      now apply startswith_app.
Qed.

Lemma fasta_reads_groups (content : string) :
  exists groups,
    fallback_reads FASTA content = map read_of groups
    /\ Forall group_ok groups.
Proof.
  unfold fallback_reads, fasta_reads.
  exists (filter (fun hb => truthy (snd hb))
            (snd (fasta_groups (split_lines (strip content))))).
  split; [reflexivity |].
  pose proof (fasta_groups_ok (split_lines (strip content))) as H.
  rewrite split_lines_split_on in *.
  destruct (H (split_on_free_lines LF (strip content))) as [_ Hrecs].
  apply Forall_forall. intros hb Hin. apply filter_In in Hin.
  destruct Hin as [Hin Ht]. rewrite Forall_forall in Hrecs.
  destruct (Hrecs hb Hin) as [Hh (Hs1 & Hs2 & Hs3)].
  split; [exact Hh |]. repeat split; try apply Hs1; try assumption.
  now apply truthy_true.
Qed.

Lemma filter_map_read_of (f : Read -> bool) (groups : list (string * string)) :
  filter f (map read_of groups)
  = map read_of (filter (fun hb => f (read_of hb)) groups).
Proof.
  induction groups as [|hb groups IH]; simpl; [reflexivity |].
  destruct (f (read_of hb)); simpl; now rewrite IH.
Qed.

Lemma block_lines_read_of (groups : list (string * string)) :
  block_lines (map read_of groups)
  = flat_map (fun hb => [fst hb; snd hb]) groups.
Proof.
  unfold block_lines. induction groups as [|hb groups IH]; simpl;
    [reflexivity | now rewrite IH].
Qed.

Lemma fasta_groups_written (groups : list (string * string)) :
  Forall group_ok groups ->
  fasta_groups (flat_map (fun hb => [fst hb; snd hb]) groups) = ("", groups).
Proof.
  induction 1 as [|[h s] groups Hok _ IH]; [reflexivity |].
  destruct Hok as [(Hht & _ & Hhh) (Hst & _ & Hsh & _)]. cbn [fst snd] in *.
  cbn [flat_map app fasta_groups fst snd]. rewrite IH. unfold is_header.
  rewrite (trimmed_strip s Hst), (trimmed_strip h Hht), Hsh, Hhh.
  now rewrite str_app_nil_r.
Qed.

(** A written set of FASTA reads is read back as the same reads. *)
Lemma fasta_reparse (groups : list (string * string)) :
  Forall group_ok groups ->
  fallback_reads FASTA (lines_content (block_lines (map read_of groups)))
  = map read_of groups.
Proof.
  intros H. rewrite block_lines_read_of.
  destruct groups as [|hb groups]; [reflexivity |].
  unfold fallback_reads. rewrite reparse_lines.
  - unfold fasta_reads. rewrite (fasta_groups_written _ H). cbn [snd].
    rewrite filter_all_true; [reflexivity |].
    eapply Forall_impl; [| exact H].
    intros g (_ & _ & _ & _ & Hne). now apply truthy_true.
  - destruct hb. discriminate.
  - apply Forall_flat_map. intros g Hg. rewrite Forall_forall in H.
    destruct (H g Hg) as [(Hht & Hhf & Hhh) (Hst & Hsf & _ & Hsne)].
    repeat constructor; try apply Hht; try apply Hst; try assumption.
    now apply startswith_nonempty.
Qed.

Lemma filter_idempotent {A} (f : A -> bool) (l : list A) :
  filter f (filter f l) = filter f l.
Proof.
  apply filter_all_true, Forall_forall. intros x Hx.
  now apply filter_In in Hx.
Qed.

Lemma filter_disjoint {A} (f g : A -> bool) (l : list A) :
  (forall x, g x = true -> f x = false) -> filter f (filter g l) = [].
Proof.
  intros H. apply filter_none. intros x Hx. apply filter_In in Hx.
  now apply H.
Qed.

Lemma clean_not_hit (adapters : list string) (r : Read) :
  clean adapters r = true -> hit adapters r = false.
Proof. unfold clean. now destruct (hit adapters r). Qed.

Lemma hit_not_clean (adapters : list string) (r : Read) :
  hit adapters r = true -> clean adapters r = false.
Proof. unfold clean. now intros ->. Qed.

(** X12. The FASTA fallback reads its own outputs back: the kept text
    parses to exactly the kept reads and the discarded text to the
    discarded reads, so filtering the kept text again with the same panel
    returns it unchanged with nothing discarded, and filtering the
    discarded text discards all of it. *)
Theorem fasta_fallback_idempotent (path_suffix : string -> string)
    (adapter_content reads_content reads_filename : string)
    (params : Params) :
  file_format_from_name path_suffix reads_filename = FASTA ->
  exists kept_content discarded_content log,
    simple_filter_fallback path_suffix adapter_content reads_content
      reads_filename params
    = Some (kept_content, discarded_content, log)
    /\ fallback_reads FASTA kept_content
       = filter (clean (fallback_adapters adapter_content))
           (fallback_reads FASTA reads_content)
    /\ fallback_reads FASTA discarded_content
       = filter (hit (fallback_adapters adapter_content))
           (fallback_reads FASTA reads_content)
    /\ simple_filter_fallback path_suffix adapter_content kept_content
         reads_filename params
       = Some (kept_content, "",
               mkRunLog SimpleSubstring params reads_filename FASTA
                 (log_reads_kept log) (log_adapters_loaded log)
                 (log_reads_kept log) 0)
    /\ simple_filter_fallback path_suffix adapter_content discarded_content
         reads_filename params
       = Some ("", discarded_content,
               mkRunLog SimpleSubstring params reads_filename FASTA
                 (log_reads_discarded log) (log_adapters_loaded log)
                 0 (log_reads_discarded log)).
Proof.
  intros Hfmt.
  set (adapters := fallback_adapters adapter_content).
  set (reads := fallback_reads FASTA reads_content).
  assert (Hback : forall f : Read -> bool,
             fallback_reads FASTA (lines_content (block_lines (filter f reads)))
             = filter f reads).
  { intros f. unfold reads.
    destruct (fasta_reads_groups reads_content) as (groups & -> & Hok).
    rewrite filter_map_read_of. apply fasta_reparse, Forall_filter, Hok. }
  exists (lines_content (block_lines (filter (clean adapters) reads))),
    (lines_content (block_lines (filter (hit adapters) reads))),
    (mkRunLog SimpleSubstring params reads_filename FASTA
       (List.length reads) (List.length adapters)
       (List.length (filter (clean adapters) reads))
       (List.length (filter (hit adapters) reads))).
  split; [| split; [apply Hback | split; [apply Hback | split]]].
  - rewrite simple_filter_fallback_reads. cbv zeta. now rewrite Hfmt.
  - rewrite simple_filter_fallback_reads. cbv zeta. rewrite Hfmt.
    fold adapters. rewrite Hback, filter_idempotent.
    rewrite (filter_disjoint (hit adapters) (clean adapters))
      by apply clean_not_hit.
    reflexivity.
  - rewrite simple_filter_fallback_reads. cbv zeta. rewrite Hfmt.
    fold adapters. rewrite Hback, filter_idempotent.
    rewrite (filter_disjoint (clean adapters) (hit adapters))
      by apply hit_not_clean.
    reflexivity.
Qed.

Lemma fasta_fallback_idempotent_witness :
  exists log,
    simple_filter_fallback Reference.path_suffix Scenario.adapter_panel
      Scenario.reads "reads.fasta" Scenario.params
    = Some (">r2" ++ String LF ("GGGGGGGGGG" ++ String LF ""),
            ">r1" ++ String LF ("ACGTACGTTTTT" ++ String LF ""), log)
    /\ simple_filter_fallback Reference.path_suffix Scenario.adapter_panel
         (">r2" ++ String LF ("GGGGGGGGGG" ++ String LF ""))
         "reads.fasta" Scenario.params
       = Some (">r2" ++ String LF ("GGGGGGGGGG" ++ String LF ""), "",
               mkRunLog SimpleSubstring Scenario.params "reads.fasta" FASTA
                 1 1 1 0).
Proof.
  destruct (fasta_fallback_idempotent Reference.path_suffix
              Scenario.adapter_panel Scenario.reads "reads.fasta"
              Scenario.params eq_refl)
    as (kc & dc & log & Hrun & _ & _ & Hagain & _).
  assert (E : Some (kc, dc, log)
              = Some (">r2" ++ String LF ("GGGGGGGGGG" ++ String LF ""),
                      ">r1" ++ String LF ("ACGTACGTTTTT" ++ String LF ""),
                      mkRunLog SimpleSubstring Scenario.params "reads.fasta"
                        FASTA 2 1 1 1))
    by (rewrite <- Hrun; reflexivity).
  injection E as -> -> ->.
  eexists. split; [exact Hrun | exact Hagain].
Defined.

Lemma fastq_reads_ok (lines : list string) :
  Forall line_ok lines -> Forall fastq_read_ok (fastq_reads lines).
Proof.
  induction lines as [| | | |l1 l2 l3 l4 rest IH] using list_ind4;
    intros H; try constructor.
  - inversion H as [|? ? H1 H']; subst. inversion H' as [|? ? H2 H'']; subst.
    inversion H'' as [|? ? H3 H''']; subst. inversion H''' as [|? ? H4 _]; subst.
    now exists l1, l2, l3, l4.
  - apply IH. now do 4 (apply Forall_inv_tail in H).
Qed.

Lemma fastq_reads_written (reads : list Read) :
  Forall fastq_read_ok reads -> fastq_reads (block_lines reads) = reads.
Proof.
  unfold block_lines.
  induction 1 as [|r reads (l1 & l2 & l3 & l4 & -> & _) _ IH];
    [reflexivity |].
  cbn [map List.concat snd app fastq_reads]. now rewrite IH.
Qed.

Lemma fastq_block_lines_ok (reads : list Read) :
  Forall fastq_read_ok reads -> Forall line_ok (block_lines reads).
Proof.
  unfold block_lines.
  induction 1 as [|r reads (l1 & l2 & l3 & l4 & -> & H1 & H2 & H3 & H4) _ IH];
    [constructor |].
  cbn [map List.concat snd app]. repeat (constructor; [assumption |]).
  exact IH.
Qed.

(** A written set of FASTQ reads is read back as the same reads. *)
Lemma fastq_reparse (reads : list Read) :
  Forall fastq_read_ok reads ->
  fallback_reads FASTQ (lines_content (block_lines reads)) = reads.
Proof.
  intros H. destruct reads as [|r reads]; [reflexivity |].
  unfold fallback_reads. rewrite reparse_lines.
  - now apply fastq_reads_written.
  - inversion H as [|? ? (l1 & l2 & l3 & l4 & -> & _) _]; subst.
    unfold block_lines. discriminate.
  - now apply fastq_block_lines_ok.
Qed.

(** X13. When no line of a FASTQ text is empty or has white space at
    either end, the fallback reads its own outputs back: filtering the
    kept text again with the same panel returns it unchanged with nothing
    discarded, and filtering the discarded text discards all of it. *)
Theorem fastq_fallback_idempotent (path_suffix : string -> string)
    (adapter_content reads_content reads_filename : string)
    (params : Params) :
  file_format_from_name path_suffix reads_filename = FASTQ ->
  Forall (fun l => trimmed l /\ l <> "") (split_lines (strip reads_content)) ->
  exists kept_content discarded_content log,
    simple_filter_fallback path_suffix adapter_content reads_content
      reads_filename params
    = Some (kept_content, discarded_content, log)
    /\ fallback_reads FASTQ kept_content
       = filter (clean (fallback_adapters adapter_content))
           (fallback_reads FASTQ reads_content)
    /\ fallback_reads FASTQ discarded_content
       = filter (hit (fallback_adapters adapter_content))
           (fallback_reads FASTQ reads_content)
    /\ simple_filter_fallback path_suffix adapter_content kept_content
         reads_filename params
       = Some (kept_content, "",
               mkRunLog SimpleSubstring params reads_filename FASTQ
                 (log_reads_kept log) (log_adapters_loaded log)
                 (log_reads_kept log) 0)
    /\ simple_filter_fallback path_suffix adapter_content discarded_content
         reads_filename params
       = Some ("", discarded_content,
               mkRunLog SimpleSubstring params reads_filename FASTQ
                 (log_reads_discarded log) (log_adapters_loaded log)
                 0 (log_reads_discarded log)).
Proof.
  intros Hfmt Hlines.
  set (adapters := fallback_adapters adapter_content).
  set (reads := fallback_reads FASTQ reads_content).
  assert (Hok : Forall fastq_read_ok reads).
  { unfold reads, fallback_reads. apply fastq_reads_ok.
    pose proof (split_on_free_lines LF (strip reads_content)) as Hf.
    rewrite <- split_lines_split_on in Hf.
    rewrite Forall_forall in *. intros l Hl.
    destruct (Hlines l Hl) as [Ht Hne]. repeat split; auto. apply Ht. apply Ht. }
  assert (Hback : forall f : Read -> bool,
             fallback_reads FASTQ (lines_content (block_lines (filter f reads)))
             = filter f reads)
    by (intros f; apply fastq_reparse, Forall_filter, Hok).
  exists (lines_content (block_lines (filter (clean adapters) reads))),
    (lines_content (block_lines (filter (hit adapters) reads))),
    (mkRunLog SimpleSubstring params reads_filename FASTQ
       (List.length reads) (List.length adapters)
       (List.length (filter (clean adapters) reads))
       (List.length (filter (hit adapters) reads))).
  split; [| split; [apply Hback | split; [apply Hback | split]]].
  - rewrite simple_filter_fallback_reads. cbv zeta. now rewrite Hfmt.
  - rewrite simple_filter_fallback_reads. cbv zeta. rewrite Hfmt.
    fold adapters. rewrite Hback, filter_idempotent.
    rewrite (filter_disjoint (hit adapters) (clean adapters))
      by apply clean_not_hit.
    reflexivity.
  - rewrite simple_filter_fallback_reads. cbv zeta. rewrite Hfmt.
    fold adapters. rewrite Hback, filter_idempotent.
    rewrite (filter_disjoint (clean adapters) (hit adapters))
      by apply hit_not_clean.
    reflexivity.
Qed.

Lemma fastq_fallback_idempotent_witness :
  file_format_from_name Reference.path_suffix "reads.fq" = FASTQ
  /\ exists kept_content discarded_content log,
       simple_filter_fallback Reference.path_suffix Scenario.adapter_panel
         CleanFastq.reads "reads.fq" Scenario.params
       = Some (kept_content, discarded_content, log)
       /\ simple_filter_fallback Reference.path_suffix Scenario.adapter_panel
            kept_content "reads.fq" Scenario.params
          = Some (kept_content, "",
                  mkRunLog SimpleSubstring Scenario.params "reads.fq" FASTQ
                    (log_reads_kept log) (log_adapters_loaded log)
                    (log_reads_kept log) 0).
Proof.
  split; [reflexivity |].
  destruct (fastq_fallback_idempotent Reference.path_suffix
              Scenario.adapter_panel CleanFastq.reads "reads.fq"
              Scenario.params eq_refl)
    as (kc & dc & log & Hrun & _ & _ & Hagain & _).
  - change (split_lines (strip CleanFastq.reads))
      with ["@r1"; "TTACGTACGTAA"; "+"; "IIIIIIIIIIII";
            "@r2"; "GGGG"; "+"; "IIII"].
    repeat (apply Forall_cons;
            [split; [split; reflexivity | discriminate] |]).
    apply Forall_nil.
  - exists kc, dc, log. split; [exact Hrun | exact Hagain].
Defined.

(** The precondition of X13 is needed: a kept record that ends in an
    empty quality line is lost when the kept text is filtered again,
    because stripping the text removes its last line. *)
Example fastq_blank_quality_lost :
  simple_filter_fallback Reference.path_suffix (">a" ++ String LF "C")
    CleanFastq.blank_quality "reads.fq" Scenario.params
  = Some ("@r1" ++ String LF ("A" ++ String LF ("+" ++ String LF
            (String LF ""))),
          "@r2" ++ String LF ("C" ++ String LF ("+" ++ String LF
            ("I" ++ String LF ""))),
          mkRunLog SimpleSubstring Scenario.params "reads.fq" FASTQ 2 1 1 1)
  /\ simple_filter_fallback Reference.path_suffix (">a" ++ String LF "C")
       ("@r1" ++ String LF ("A" ++ String LF ("+" ++ String LF
          (String LF ""))))
       "reads.fq" Scenario.params
     = Some ("", "",
             mkRunLog SimpleSubstring Scenario.params "reads.fq" FASTQ
               0 1 0 0).
Proof. split; reflexivity. Qed.

(** ** Letter case *)

Lemma upper_lower_char (c : ascii) : upper_char (lower_char c) = upper_char c.
Proof. destruct c as [[] [] [] [] [] [] [] []]; reflexivity. Qed.

Lemma upper_lower (s : string) : upper (lower s) = upper s.
Proof.
  induction s as [|c s IH]; simpl; [reflexivity |].
  now rewrite upper_lower_char, IH.
Qed.

Lemma upper_same_ignoring_case (s t : string) :
  same_ignoring_case s t -> upper s = upper t.
Proof.
  intros H. apply lower_same_ignoring_case in H.
  now rewrite <- (upper_lower s), H, upper_lower.
Qed.

Lemma is_space_upper_char (c : ascii) : is_space (upper_char c) = is_space c.
Proof. destruct c as [[] [] [] [] [] [] [] []]; reflexivity. Qed.

Lemma eqb_LF_upper_char (c : ascii) :
  Ascii.eqb (upper_char c) LF = Ascii.eqb c LF.
Proof. destruct c as [[] [] [] [] [] [] [] []]; reflexivity. Qed.

Lemma eqb_gt_upper_char (c : ascii) :
  Ascii.eqb (upper_char c) ">" = Ascii.eqb c ">".
Proof. destruct c as [[] [] [] [] [] [] [] []]; reflexivity. Qed.

Lemma upper_app (s t : string) : upper (s ++ t) = upper s ++ upper t.
Proof. induction s as [|c s IH]; simpl; [reflexivity | now rewrite IH]. Qed.

Lemma lstrip_upper (s : string) : lstrip (upper s) = upper (lstrip s).
Proof.
  induction s as [|c s IH]; simpl; [reflexivity |].
  rewrite is_space_upper_char. destruct (is_space c); [exact IH | reflexivity].
Qed.

Lemma rstrip_upper (s : string) : rstrip (upper s) = upper (rstrip s).
Proof.
  induction s as [|c s IH]; simpl; [reflexivity |].
  rewrite IH, is_space_upper_char.
  destruct (rstrip s); simpl; [destruct (is_space c) |]; reflexivity.
Qed.

Lemma strip_upper (s : string) : strip (upper s) = upper (strip s).
Proof. unfold strip. now rewrite lstrip_upper, rstrip_upper. Qed.

Lemma split_lines_upper (s : string) :
  split_lines (upper s) = map upper (split_lines s).
Proof.
  induction s as [|c s IH]; simpl; [reflexivity |].
  rewrite eqb_LF_upper_char, IH.
  destruct (Ascii.eqb c LF); [reflexivity |].
  destruct (split_lines s); reflexivity.
Qed.

Lemma startswith_gt (s : string) :
  startswith s ">"
  = match s with
    | EmptyString => false
    | String c _ => Ascii.eqb c ">"
    end.
Proof.
  unfold startswith. destruct s as [|c s]; [reflexivity |].
  cbn [prefix]. destruct (ascii_dec ">" c) as [<-|Hc].
  - destruct s; reflexivity.
  - symmetry. apply Ascii.eqb_neq. congruence.
Qed.

Lemma is_header_upper (line : string) :
  is_header (upper line) = is_header line.
Proof.
  unfold is_header. rewrite strip_upper, !startswith_gt.
  destruct (strip line); [reflexivity | apply eqb_gt_upper_char].
Qed.

Lemma group_records_upper (lines : list string) :
  group_records (map upper lines)
  = (upper (fst (group_records lines)), map upper (snd (group_records lines))).
Proof.
  induction lines as [|line rest IH]; [reflexivity |].
  cbn [map group_records]. rewrite IH, is_header_upper.
  destruct (group_records rest) as [body recs]. cbn [fst snd].
  destruct (is_header line); cbn [fst snd map]; [reflexivity |].
  now rewrite strip_upper, upper_app.
Qed.

Lemma panel_records_upper (content : string) :
  panel_records (upper content) = map upper (panel_records content).
Proof.
  unfold panel_records. rewrite strip_upper, split_lines_upper.
  rewrite group_records_upper.
  destruct (split_lines (strip content)) as [|line rest];
    destruct (group_records _) as [body recs]; [reflexivity |].
  cbn [map fst snd]. rewrite is_header_upper.
  destruct (is_header line); reflexivity.
Qed.

Lemma flat_map_emit_upper (recs : list string) :
  flat_map emit_pair (map upper recs) = flat_map emit_pair recs
  /\ flat_map emit_forward (map upper recs) = flat_map emit_forward recs.
Proof.
  induction recs as [|s recs [IH1 IH2]]; [split; reflexivity |].
  cbn [map flat_map]. rewrite IH1, IH2.
  unfold emit_pair, emit_forward, adapter_pair.
  now rewrite upper_truthy, upper_idempotent.
Qed.

(** X14. The letter case of the adapter panel does not matter: two panel
    texts that differ in the case of their letters only load the same
    adapters, with [load_adapters] and with the fallback's parser. *)
Theorem panel_case_insensitive (content content' : string) :
  same_ignoring_case content content' ->
  load_adapters content = load_adapters content'
  /\ fallback_adapters content = fallback_adapters content'.
Proof.
  intros H. apply upper_same_ignoring_case in H.
  assert (L : forall c, load_adapters (upper c) = load_adapters c).
  { intros c. rewrite !load_adapters_flat_map, panel_records_upper.
    apply flat_map_emit_upper. }
  assert (F : forall c, fallback_adapters (upper c) = fallback_adapters c).
  { intros c. rewrite !fallback_adapters_flat_map, panel_records_upper.
    apply flat_map_emit_upper. }
  split.
  - now rewrite <- (L content), H, L.
  - now rewrite <- (F content), H, F.
Qed.

Lemma panel_case_insensitive_witness :
  same_ignoring_case (">a1" ++ String LF "acgTT") (">A1" ++ String LF "AcGtt")
  /\ load_adapters (">a1" ++ String LF "acgTT") = ["ACGTT"; "AACGT"]
  /\ load_adapters (">a1" ++ String LF "acgTT")
     = load_adapters (">A1" ++ String LF "AcGtt").
Proof.
  assert (H : same_ignoring_case (">a1" ++ String LF "acgTT")
                (">A1" ++ String LF "AcGtt"))
    by (unfold same_ignoring_case; simpl; repeat constructor).
  split; [exact H | split; [reflexivity |]].
  exact (proj1 (panel_case_insensitive _ _ H)).
Defined.

Lemma fastq_reads_upper (lines : list string) :
  map fst (fastq_reads (map upper lines)) = map fst (fastq_reads lines).
Proof.
  induction lines as [| | | |l1 l2 l3 l4 rest IH] using list_ind4;
    try reflexivity.
  cbn [map fastq_reads fst]. now rewrite IH, strip_upper, upper_idempotent.
Qed.

Lemma fasta_groups_upper (lines : list string) :
  fasta_groups (map upper lines)
  = (upper (fst (fasta_groups lines)),
     map (fun hb => (upper (fst hb), upper (snd hb)))
       (snd (fasta_groups lines))).
Proof.
  induction lines as [|line rest IH]; [reflexivity |].
  cbn [map fasta_groups]. rewrite IH, is_header_upper.
  destruct (fasta_groups rest) as [body recs]. cbn [fst snd].
  destruct (is_header line); cbn [fst snd map].
  - now rewrite strip_upper.
  - now rewrite strip_upper, upper_app.
Qed.

Lemma fasta_reads_upper (lines : list string) :
  map fst (fasta_reads (map upper lines)) = map fst (fasta_reads lines).
Proof.
  unfold fasta_reads. rewrite fasta_groups_upper. cbn [snd].
  induction (snd (fasta_groups lines)) as [|hb recs IH]; [reflexivity |].
  cbn [map filter fst snd]. rewrite upper_truthy.
  destruct (truthy (snd hb)); cbn [map fst snd]; [| exact IH].
  now rewrite upper_idempotent, IH.
Qed.

Lemma fallback_reads_upper (fmt : Format) (reads_content : string) :
  map fst (fallback_reads fmt (upper reads_content))
  = map fst (fallback_reads fmt reads_content).
Proof.
  unfold fallback_reads. rewrite strip_upper, split_lines_upper.
  destruct fmt; [apply fasta_reads_upper | apply fastq_reads_upper].
Qed.

Lemma map_hit_sequences (adapters : list string) (reads : list Read) :
  map (hit adapters) reads = map (substring_hit adapters) (map fst reads).
Proof. now rewrite map_map. Qed.

Lemma filter_length_map {A} (f : A -> bool) (l l' : list A) :
  map f l = map f l' ->
  List.length (filter f l) = List.length (filter f l').
Proof.
  revert l'. induction l as [|x l IH]; intros [|y l'] H; try discriminate;
    [reflexivity |].
  injection H as Hxy H. simpl. rewrite Hxy.
  destruct (f y); simpl; now rewrite (IH l' H).
Qed.

(** X15. In fallback mode the letter case of the reads does not matter
    for the verdicts: for two read texts that differ in the case of their
    letters only, the reads are compared by the same upper-case
    sequences, the read at each position gets the same verdict, and the
    logs show the same total, kept and discarded counts. *)
Theorem fallback_reads_case_insensitive (path_suffix : string -> string)
    (adapter_content reads_content reads_content' reads_filename : string)
    (params : Params) :
  same_ignoring_case reads_content reads_content' ->
  exists out log out' log',
    simple_filter_fallback path_suffix adapter_content reads_content
      reads_filename params = Some (out, log)
    /\ simple_filter_fallback path_suffix adapter_content reads_content'
         reads_filename params = Some (out', log')
    /\ map fst (fallback_reads
                  (file_format_from_name path_suffix reads_filename)
                  reads_content)
       = map fst (fallback_reads
                    (file_format_from_name path_suffix reads_filename)
                    reads_content')
    /\ map (hit (fallback_adapters adapter_content))
         (fallback_reads (file_format_from_name path_suffix reads_filename)
            reads_content)
       = map (hit (fallback_adapters adapter_content))
           (fallback_reads (file_format_from_name path_suffix reads_filename)
              reads_content')
    /\ log_total_reads log = log_total_reads log'
    /\ log_reads_kept log = log_reads_kept log'
    /\ log_reads_discarded log = log_reads_discarded log'.
Proof.
  intros H. apply upper_same_ignoring_case in H.
  set (fmt := file_format_from_name path_suffix reads_filename).
  set (adapters := fallback_adapters adapter_content).
  assert (Hseq : map fst (fallback_reads fmt reads_content)
                 = map fst (fallback_reads fmt reads_content')).
  { rewrite <- (fallback_reads_upper fmt reads_content), H.
    apply fallback_reads_upper. }
  assert (Hhit : map (hit adapters) (fallback_reads fmt reads_content)
                 = map (hit adapters) (fallback_reads fmt reads_content'))
    by (now rewrite !map_hit_sequences, Hseq).
  assert (Hclean : map (clean adapters) (fallback_reads fmt reads_content)
                   = map (clean adapters) (fallback_reads fmt reads_content')).
  { unfold clean.
    rewrite <- (map_map (hit adapters) negb (fallback_reads fmt reads_content)).
    rewrite <- (map_map (hit adapters) negb (fallback_reads fmt reads_content')).
    now rewrite Hhit. }
  assert (Hlen : List.length (fallback_reads fmt reads_content)
                 = List.length (fallback_reads fmt reads_content')).
  { pose proof (f_equal (@List.length string) Hseq) as Hl.
    now rewrite !length_map in Hl. }
  rewrite !simple_filter_fallback_reads. cbv zeta. fold fmt adapters.
  do 4 eexists. split; [reflexivity | split; [reflexivity |]].
  split; [exact Hseq | split; [exact Hhit |]].
  cbn [log_total_reads log_reads_kept log_reads_discarded].
  split; [exact Hlen | split].
  - now apply filter_length_map.
  - now apply filter_length_map.
Qed.

Lemma fallback_reads_case_insensitive_witness :
  same_ignoring_case Scenario.reads (upper Scenario.reads)
  /\ exists out log out' log',
       simple_filter_fallback Reference.path_suffix Scenario.adapter_panel
         Scenario.reads "reads.fasta" Scenario.params = Some (out, log)
       /\ simple_filter_fallback Reference.path_suffix Scenario.adapter_panel
            (upper Scenario.reads) "reads.fasta" Scenario.params
          = Some (out', log')
       /\ log_reads_discarded log = log_reads_discarded log'.
Proof.
  assert (H : same_ignoring_case Scenario.reads (upper Scenario.reads))
    by (unfold same_ignoring_case; simpl; repeat constructor).
  split; [exact H |].
  destruct (fallback_reads_case_insensitive Reference.path_suffix
              Scenario.adapter_panel Scenario.reads (upper Scenario.reads)
              "reads.fasta" Scenario.params H)
    as (out & log & out' & log' & H1 & H2 & _ & _ & _ & _ & H3).
  exists out, log, out', log'. split; [exact H1 | split; [exact H2 | exact H3]].
Defined.

(** ** Lines before the first header *)

Lemma fasta_groups_leading (pre rest : list string) :
  Forall (fun l => is_header l = false) pre ->
  snd (fasta_groups (pre ++ rest)) = snd (fasta_groups rest).
Proof.
  induction 1 as [|line pre Hline _ IH]; [reflexivity |].
  cbn [app fasta_groups]. destruct (fasta_groups (pre ++ rest)) as [body recs].
  rewrite Hline. exact IH.
Qed.

(** X16. The FASTA fallback silently drops the lines that precede the
    first header: the run is the run on the lines from the first header
    on, and a text without any header line has no reads at all (total 0,
    both outputs empty), whereas the adapter loaders take such lines as a
    record. *)
Theorem fasta_fallback_drops_leading_lines (path_suffix : string -> string)
    (adapter_content reads_content reads_filename : string)
    (params : Params) (pre rest : list string) :
  file_format_from_name path_suffix reads_filename = FASTA ->
  split_lines (strip reads_content) = (pre ++ rest)%list ->
  Forall (fun l => is_header l = false) pre ->
  fallback_reads FASTA reads_content = fasta_reads rest
  /\ simple_filter_fallback path_suffix adapter_content reads_content
       reads_filename params
     = Some (lines_content
               (block_lines
                  (filter (clean (fallback_adapters adapter_content))
                     (fasta_reads rest))),
             lines_content
               (block_lines
                  (filter (hit (fallback_adapters adapter_content))
                     (fasta_reads rest))),
             mkRunLog SimpleSubstring params reads_filename FASTA
               (List.length (fasta_reads rest))
               (List.length (fallback_adapters adapter_content))
               (List.length
                  (filter (clean (fallback_adapters adapter_content))
                     (fasta_reads rest)))
               (List.length
                  (filter (hit (fallback_adapters adapter_content))
                     (fasta_reads rest))))
  /\ (rest = [] ->
      simple_filter_fallback path_suffix adapter_content reads_content
        reads_filename params
      = Some ("", "",
              mkRunLog SimpleSubstring params reads_filename FASTA 0
                (List.length (fallback_adapters adapter_content)) 0 0)).
Proof.
  intros Hfmt Hlines Hpre.
  assert (E : fallback_reads FASTA reads_content = fasta_reads rest).
  { unfold fallback_reads, fasta_reads. rewrite Hlines.
    now rewrite (fasta_groups_leading pre rest Hpre). }
  assert (R : simple_filter_fallback path_suffix adapter_content reads_content
                reads_filename params
              = Some (lines_content
                        (block_lines
                           (filter (clean (fallback_adapters adapter_content))
                              (fasta_reads rest))),
                      lines_content
                        (block_lines
                           (filter (hit (fallback_adapters adapter_content))
                              (fasta_reads rest))),
                      mkRunLog SimpleSubstring params reads_filename FASTA
                        (List.length (fasta_reads rest))
                        (List.length (fallback_adapters adapter_content))
                        (List.length
                           (filter (clean (fallback_adapters adapter_content))
                              (fasta_reads rest)))
                        (List.length
                           (filter (hit (fallback_adapters adapter_content))
                              (fasta_reads rest))))).
  { rewrite simple_filter_fallback_reads. cbv zeta. now rewrite Hfmt, E. }
  split; [exact E | split; [exact R |]].
  intros ->. rewrite R. reflexivity.
Qed.

Lemma fasta_fallback_drops_leading_lines_witness :
  simple_filter_fallback Reference.path_suffix Scenario.adapter_panel
    ("ACGTACGT" ++ String LF "ACGTACGT") "reads.fa" Scenario.params
  = Some ("", "",
          mkRunLog SimpleSubstring Scenario.params "reads.fa" FASTA 0 1 0 0).
Proof.
  refine (proj2 (proj2 (fasta_fallback_drops_leading_lines
                          Reference.path_suffix Scenario.adapter_panel
                          ("ACGTACGT" ++ String LF "ACGTACGT") "reads.fa"
                          Scenario.params ["ACGTACGT"; "ACGTACGT"] []
                          eq_refl eq_refl _)) eq_refl).
  repeat constructor.
Defined.
